(** * The single-observation consensus reactor

    A shallow embedding of [node/pkg/processor/reactor/reactor.go]: the
    reactor state record, the three event handlers ([observed],
    [observationReceived], [housekeeping]), the helpers they call and the
    read accessors, followed by the properties of the state machine.

    Conventions of the embedding:
    - a Go [int] or [time.Duration] is a [Z]; a [[]byte] is a [list byte];
      an [ethcommon.Address] is the 20-byte list built by [BytesToAddress];
    - the Go map [signatures] is a [gmap] from addresses to byte strings;
    - handlers run in a small monad [M] over a [World]: the reactor state, a
      counter of the calls made to the outside (clock, signer, sender) and
      the chronological trace of effects (metrics, log lines, hook
      dispatches, gossip sends).  A panic stops the handler and keeps the
      world reached so far;
    - the clock, the signer and the sender are oracles indexed by that call
      counter, so that a statement quantified over them speaks about every
      behaviour of the collaborators;
    - every handler holds [reactorState.mutex] from its first to its last
      statement and the driver loop is the only writer, so a handler is one
      atomic step; the channels and the logger's fields are left out, and a
      counter is named as in the list of metrics of the specification. *)

From Stdlib Require Import ZArith Lia List Sorting.Sorted.
From Stdlib Require Import Strings.String Strings.Byte.
From stdpp Require Import gmap strings list fin_maps.
Import ListNotations.

Local Open Scope string_scope.
Local Open Scope list_scope.
Local Open Scope Z_scope.

(** ** Bytes, addresses, time *)

Abbreviation bytes := (list byte).

#[global] Instance byte_eq_dec : EqDecision byte := Byte.byte_eq_dec.

#[global] Instance byte_countable : Countable byte :=
  inj_countable Byte.to_N Byte.of_N Byte.of_to_N.

(** [ethcommon.Address] is [[20]byte].  The model stores it as the byte
    list produced by [BytesToAddress] (always of length 20). *)
Abbreviation Address := (list byte).

Definition AddressLength : nat := 20.

(** Go's [b[n:]] on a slice of at least [n] elements, as are the 65-byte
    key of [Ecrecover] and the 32-byte hash of [Keccak256]. *)
Definition slice_from {A} (n : nat) (b : list A) : list A := drop n b.

(** [ethcommon.BytesToAddress]: [SetBytes] keeps the last 20 bytes of a
    longer input and left-pads a shorter one with zero bytes. *)
Definition BytesToAddress (b : bytes) : Address :=
  let b' := if (AddressLength <? length b)%nat
            then slice_from (length b - AddressLength) b else b in
  replicate (AddressLength - length b') x00 ++ b'.

(** [time.Time] as nanoseconds on the integer line; the zero [time.Time]
    is [0].  [time.Duration] is an [int64] count of nanoseconds. *)
Abbreviation Time := Z.
Abbreviation Duration := Z.

Definition maxDuration : Duration := 2 ^ 63 - 1.
Definition minDuration : Duration := - 2 ^ 63.

(** [Time.Sub]: the difference, saturated to the range of [Duration]. *)
Definition time_Sub (t u : Time) : Duration :=
  let d := t - u in
  if d >? maxDuration then maxDuration
  else if d <? minDuration then minDuration
  else d.

(** ** States of the reactor *)

Inductive State : Set :=
| StateInitialized
| StateObserved
| StateUnobserved
| StateQuorum
| StateQuorumUnobserved
| StateFinalized
| StateTimedOut.

#[global] Instance State_eq_dec : EqDecision State.
Proof. solve_decision. Defined.

(** The string behind each constant ([State] is a Go [string] type). *)
Definition State_string (s : State) : string :=
  match s with
  | StateInitialized => "initialized"
  | StateObserved => "observed"
  | StateUnobserved => "unobserved"
  | StateQuorum => "quorum"
  | StateQuorumUnobserved => "quorum_unobserved"
  | StateFinalized => "finalized"
  | StateTimedOut => "timed_out"
  end.

(** Go's [==] on [State] compares the strings. *)
Definition State_eqb (a b : State) : bool :=
  String.eqb (State_string a) (State_string b).

Definition terminal (s : State) : bool :=
  match s with
  | StateFinalized | StateTimedOut => true
  | _ => false
  end.

(** ** Guardian set and quorum *)

(** Modelled from the spec: [node_common.GuardianSet] is declared outside
    the reactor package.  The spec describes it as an ordered sequence of
    20-byte guardian addresses with a reverse lookup from address to index;
    the reactor reads [Keys] and calls [KeyIndex]. *)
Record GuardianSet : Type := { Keys : list Address }.

Fixpoint index_of (a : Address) (l : list Address) (i : Z) : option Z :=
  match l with
  | [] => None
  | k :: l' => if decide (k = a) then Some i else index_of a l' (i + 1)
  end.

(** Modelled from the spec: the reverse lookup of the guardian set; the
    second component of Go's [(int, bool)] result is [is_Some]. *)
Definition KeyIndex (gs : GuardianSet) (a : Address) : option Z :=
  index_of a (Keys gs) 0.

(** Modelled from the spec: [vaa.CalculateQuorum] lives in the sdk, outside
    the reactor package.  The spec gives [quorum(n) = floor(n*2/3) + 1]. *)
Definition CalculateQuorum (numGuardians : Z) : Z :=
  numGuardians * 2 / 3 + 1.

(** ** Wire message and effects *)

Record SignedObservation : Type := {
  Addr : bytes;
  Hash : bytes;
  Signature : bytes;
  TxHash : bytes;
  MessageId : string
}.

(** Go's [error]: [None] is [nil]. *)
Abbreviation error := (option string).

(** What a handler does to the outside, in the order it does it. *)
Inductive Effect : Type :=
| Metric (counter : string) (labels : list string)
| Log (level msg : string)
| Hook (oldState newState : State)
| Signal (s : string)
| Sent (m : SignedObservation).

(** The signer collaborator.  The [nat] argument is the value of the call
    counter when the call is made; [inr] carries the error. *)
Record Signer : Type := {
  signer_Address : nat -> Address + string;
  signer_Sign : nat -> bytes -> bytes + string
}.

(** The gossip sender: [Send] returns an error or [nil]. *)
Record GossipSender : Type := {
  Send : nat -> SignedObservation -> error
}.

Record Config : Type := {
  RetransmitFrequency : Duration;
  QuorumGracePeriod : Duration;
  QuorumTimeout : Duration;
  UnobservedTimeout : Duration;
  cfgSigner : option Signer
}.

(** One element of a [vaa.Signature] list: a [uint8] index and 65 bytes. *)
Record VaaSignature : Type := {
  vsIndex : Z;
  vsSignature : bytes
}.

Definition uint8 (i : Z) : Z := i mod 256.

(** ** The reactor *)

Module Reactor.

Section Model.

(** The observation type [K] with the two methods of the [Observation]
    interface. *)
Context {K : Type}.
Variable MessageID : K -> string.
Variable SigningMsg : K -> bytes.

(** go-ethereum's [crypto.Ecrecover] ([None] is its error) and
    [crypto.Keccak256]. *)
Variable Ecrecover : bytes -> bytes -> option bytes.
Variable Keccak256 : bytes -> bytes.

(** The wall clock: the reading returned by the call to [time.Now] made
    when the call counter has the given value. *)
Variable clock : nat -> Time.

Record reactorState : Type := {
  currentState : State;
  firstSeen : Time;
  lastObservation : Time;
  lastTransmission : Time;
  timeQuorum : Time;
  observation : K;
  signatures : gmap Address bytes;
  localSignature : bytes
}.

(** The fields of [ConsensusReactor] that are fixed at construction.  The
    hook is a detached goroutine: only whether one is configured matters
    to the reactor. *)
Record ConsensusReactor : Type := {
  group : string;
  gs : GuardianSet;
  consensusSender : option GossipSender;
  stateTransitionHook : bool;
  config : Config
}.

Record World : Type := {
  rstate : reactorState;
  calls : nat;
  trace : list Effect
}.

Definition set_currentState (v : State) (s : reactorState) : reactorState :=
  {| currentState := v; firstSeen := firstSeen s;
     lastObservation := lastObservation s;
     lastTransmission := lastTransmission s; timeQuorum := timeQuorum s;
     observation := observation s; signatures := signatures s;
     localSignature := localSignature s |}.

Definition set_firstSeen (v : Time) (s : reactorState) : reactorState :=
  {| currentState := currentState s; firstSeen := v;
     lastObservation := lastObservation s;
     lastTransmission := lastTransmission s; timeQuorum := timeQuorum s;
     observation := observation s; signatures := signatures s;
     localSignature := localSignature s |}.

Definition set_lastObservation (v : Time) (s : reactorState) : reactorState :=
  {| currentState := currentState s; firstSeen := firstSeen s;
     lastObservation := v;
     lastTransmission := lastTransmission s; timeQuorum := timeQuorum s;
     observation := observation s; signatures := signatures s;
     localSignature := localSignature s |}.

Definition set_lastTransmission (v : Time) (s : reactorState) : reactorState :=
  {| currentState := currentState s; firstSeen := firstSeen s;
     lastObservation := lastObservation s;
     lastTransmission := v; timeQuorum := timeQuorum s;
     observation := observation s; signatures := signatures s;
     localSignature := localSignature s |}.

Definition set_observation (v : K) (s : reactorState) : reactorState :=
  {| currentState := currentState s; firstSeen := firstSeen s;
     lastObservation := lastObservation s;
     lastTransmission := lastTransmission s; timeQuorum := timeQuorum s;
     observation := v; signatures := signatures s;
     localSignature := localSignature s |}.

Definition set_signature (a : Address) (v : bytes) (s : reactorState)
  : reactorState :=
  {| currentState := currentState s; firstSeen := firstSeen s;
     lastObservation := lastObservation s;
     lastTransmission := lastTransmission s; timeQuorum := timeQuorum s;
     observation := observation s; signatures := <[a := v]> (signatures s);
     localSignature := localSignature s |}.

Definition set_localSignature (v : bytes) (s : reactorState) : reactorState :=
  {| currentState := currentState s; firstSeen := firstSeen s;
     lastObservation := lastObservation s;
     lastTransmission := lastTransmission s; timeQuorum := timeQuorum s;
     observation := observation s; signatures := signatures s;
     localSignature := v |}.

(** *** The handler monad *)

(** A computation maps a world to a result and the world it leaves;
    [None] is a panic. *)
Definition M (A : Type) : Type := World -> option A * World.

Definition ret {A} (a : A) : M A := fun w => (Some a, w).

Definition bind {A B} (m : M A) (k : A -> M B) : M B :=
  fun w => match m w with
           | (Some a, w') => k a w'
           | (None, w') => (None, w')
           end.

Definition panic {A} : M A := fun w => (None, w).

Definition gets {A} (f : reactorState -> A) : M A :=
  fun w => (Some (f (rstate w)), w).

Definition modify (f : reactorState -> reactorState) : M unit :=
  fun w => (Some tt,
            {| rstate := f (rstate w); calls := calls w; trace := trace w |}).

Definition emit (e : Effect) : M unit :=
  fun w => (Some tt,
            {| rstate := rstate w; calls := calls w;
               trace := trace w ++ [e] |}).

(** A call to a collaborator: it is answered by the oracle at the current
    value of the call counter, which then advances. *)
Definition extern {A} (oracle : nat -> A) : M A :=
  fun w => (Some (oracle (calls w)),
            {| rstate := rstate w; calls := S (calls w); trace := trace w |}).

Notation "x <- m ; k" := (bind m (fun x => k))
  (at level 100, m at next level, right associativity).
Notation "m ;; k" := (bind m (fun _ => k))
  (at level 100, right associativity).

(** [wp m Q w]: run from [w], the computation [m] ends (with a result, or
    with [None] on a panic) in a world that satisfies [Q]. *)
Definition wp {A} (m : M A) (Q : option A -> World -> Prop) (w : World)
  : Prop :=
  Q (fst (m w)) (snd (m w)).

Definition time_Now : M Time := extern clock.

(** [time.Since t] is [time.Now().Sub(t)]. *)
Definition time_Since (t : Time) : M Duration :=
  now <- time_Now; ret (time_Sub now t).

Definition when (b : bool) (m : M unit) : M unit := if b then m else ret tt.

Variable c : ConsensusReactor.

(** *** Helpers of the transition engine *)

Definition stateTransition (to : State) : M unit :=
  previousState <- gets currentState;
  emit (Log "debug" "state transition");;
  modify (set_currentState to);;
  when (stateTransitionHook c) (emit (Hook previousState to)).

Definition timeOut : M unit :=
  st <- gets currentState;
  if State_eqb st StateQuorum then
    emit (Metric "reactor_finalized" [group c]);;
    stateTransition StateFinalized
  else
    emit (Metric "reactor_timed_out" [group c; State_string st]);;
    stateTransition StateTimedOut.

Definition hasQuorum_of (s : reactorState) : bool :=
  Z.of_nat (size (signatures s))
    >=? CalculateQuorum (Z.of_nat (length (Keys (gs c)))).

Definition hasQuorum : M bool := gets hasQuorum_of.

Definition transmitSignature : M error :=
  match cfgSigner (config c) with
  | None => ret (Some "can't broadcast signature without signer")
  | Some signer =>
    match consensusSender c with
    | None => ret (Some "can't broadcast signature without consensus sender")
    | Some sender =>
      r <- extern (signer_Address signer);
      match r with
      | inr err =>
        ret (Some ("failed to get signer address for signature broadcast: "
                   +:+ err))
      | inl addr =>
        o <- gets observation;
        sig <- gets localSignature;
        let signedO := {| Addr := addr; Hash := SigningMsg o;
                          Signature := sig; TxHash := [];
                          MessageId := MessageID o |} in
        emit (Sent signedO);;
        r <- extern (fun n => Send sender n signedO);
        match r with
        | Some err => ret (Some ("failed to broadcast observation: " +:+ err))
        | None =>
          emit (Metric "observations_broadcast" [group c]);;
          now <- time_Now;
          modify (set_lastTransmission now);;
          ret None
        end
      end
    end
  end.

(** *** Signature verifier *)

Inductive VerifyError : Set :=
| invalid_signature
| pubkey_mismatch
| unknown_guardian.

Definition VerifyError_string (e : VerifyError) : string :=
  match e with
  | invalid_signature => "invalid_signature"
  | pubkey_mismatch => "pubkey_mismatch"
  | unknown_guardian => "unknown_guardian"
  end.

(** The error of [verifySignedObservation] is kept as its reason, the
    label under which the failure is counted. *)
Definition verifySignedObservation (grp : string) (m : SignedObservation)
    (g : GuardianSet) : M (option VerifyError) :=
  match Ecrecover (Hash m) (Signature m) with
  | None =>
    emit (Metric "observations_failed" [grp; "invalid_signature"]);;
    ret (Some invalid_signature)
  | Some pk =>
    let theirAddr := BytesToAddress (Addr m) in
    let sigPub :=
      BytesToAddress (slice_from 12 (Keccak256 (slice_from 1 pk))) in
    if decide (theirAddr <> sigPub) then
      emit (Metric "observations_failed" [grp; "pubkey_mismatch"]);;
      ret (Some pubkey_mismatch)
    else
      match KeyIndex g theirAddr with
      | None =>
        emit (Metric "observations_failed" [grp; "unknown_guardian"]);;
        ret (Some unknown_guardian)
      | Some _ => ret None
      end
  end.

(** *** Event handlers *)

Definition housekeeping : M (bool * error) :=
  emit (Log "debug" "starting housekeeping");;
  st <- gets currentState;
  r <- match st with
       | StateUnobserved =>
         t <- gets firstSeen;
         d <- time_Since t;
         when (d >? UnobservedTimeout (config c))
           (emit (Log "debug" "timing out");; timeOut);;
         ret (false, None)
       | StateObserved =>
         t <- gets lastObservation;
         d <- time_Since t;
         when (d >? QuorumTimeout (config c))
           (emit (Log "debug" "timing out");; timeOut);;
         t' <- gets lastTransmission;
         d' <- time_Since t';
         when (d' >? RetransmitFrequency (config c))
           (emit (Log "debug" "retransmitting");;
            emit (Metric "reactor_resubmission" [group c]);;
            err <- transmitSignature;
            when (bool_decide (err <> None))
              (emit (Log "error" "failed to retransmit signature")));;
         ret (false, None)
       | StateQuorum =>
         t <- gets timeQuorum;
         d <- time_Since t;
         n <- gets (fun s => size (signatures s));
         when ((d >? QuorumGracePeriod (config c))
               || bool_decide (length (Keys (gs c)) = n))
           (emit (Log "debug" "timing out");; timeOut);;
         ret (false, None)
       | StateQuorumUnobserved =>
         t <- gets firstSeen;
         d <- time_Since t;
         when (d >? UnobservedTimeout (config c))
           (emit (Log "debug" "timing out");; timeOut);;
         ret (false, None)
       | StateFinalized | StateTimedOut => ret (true, None)
       | StateInitialized => ret (false, None)
       end;
  emit (Log "debug" "housekeeping completed");;
  ret r.

Definition rejects_foreign (st : State) : bool :=
  negb (State_eqb st StateObserved) && negb (State_eqb st StateUnobserved)
  && negb (State_eqb st StateQuorum)
  && negb (State_eqb st StateQuorumUnobserved)
  && negb (State_eqb st StateInitialized).

Definition observationReceived (m : SignedObservation) : M unit :=
  emit (Metric "observations_received" [group c]);;
  emit (Log "debug" "received foreign observation");;
  st <- gets currentState;
  if rejects_foreign st then ret tt else
  err <- verifySignedObservation (group c) m (gs c);
  match err with
  | Some _ => emit (Log "info" "failed to verify signed observation")
  | None =>
    let theirAddr := BytesToAddress (Addr m) in
    (* the second label, the hex form of [theirAddr], is left out *)
    emit (Metric "observations_received_by_guardian" [group c]);;
    emit (Log "debug" "accepted foreign observation");;
    sigs <- gets signatures;
    match sigs !! theirAddr with
    | Some _ => ret tt
    | None =>
      modify (set_signature theirAddr (Signature m));;
      now <- time_Now;
      modify (set_lastObservation now);;
      st <- gets currentState;
      when (State_eqb st StateInitialized)
        (emit (Log "debug" "received observation before own observation");;
         now <- time_Now;
         modify (set_firstSeen now);;
         stateTransition StateUnobserved);;
      q <- hasQuorum;
      if negb q then ret tt else
      st <- gets currentState;
      match st with
      | StateObserved =>
        emit (Metric "reactor_quorum" [group c; "quorum"]);;
        stateTransition StateQuorum
      | StateUnobserved =>
        emit (Metric "reactor_quorum" [group c; "quorum_unobserved"]);;
        stateTransition StateQuorumUnobserved
      | _ => ret tt
      end
    end
  end.

Definition rejects_local (st : State) : bool :=
  negb (State_eqb st StateInitialized) && negb (State_eqb st StateUnobserved)
  && negb (State_eqb st StateQuorumUnobserved).

Definition observed (o : K) : M unit :=
  emit (Log "debug" "observed");;
  st <- gets currentState;
  if rejects_local st then ret tt else
  when (State_eqb st StateQuorumUnobserved)
    (emit (Metric "reactor_observed_late" [group c]));;
  modify (set_observation o);;
  match cfgSigner (config c) with
  | Some signer =>
    let digest := SigningMsg o in
    r <- extern (signer_Address signer);
    match r with
    | inr _ => panic
    | inl localAddr =>
      r <- extern (fun n => signer_Sign signer n digest);
      match r with
      | inr _ => panic
      | inl s =>
        modify (set_localSignature s);;
        emit (Metric "messages_signed" [group c]);;
        modify (set_signature localAddr s);;
        err <- transmitSignature;
        when (bool_decide (err <> None))
          (emit (Log "error" "failed to transmit signature on observation"))
      end
    end
  | None => ret tt
  end;;
  st <- gets currentState;
  returned <- match st with
              | StateInitialized =>
                now <- time_Now;
                modify (set_firstSeen now);;
                now <- time_Now;
                modify (set_lastObservation now);;
                stateTransition StateObserved;;
                ret false
              | StateUnobserved =>
                now <- time_Now;
                modify (set_lastObservation now);;
                stateTransition StateObserved;;
                ret false
              | StateQuorumUnobserved =>
                emit (Metric "reactor_quorum" [group c; "quorum"]);;
                stateTransition StateQuorum;;
                ret true
              | _ => ret false
              end;
  if returned : bool then ret tt else
  q <- hasQuorum;
  if negb q then ret tt else
  st <- gets currentState;
  match st with
  | StateObserved =>
    emit (Metric "reactor_quorum" [group c; "quorum"]);;
    stateTransition StateQuorum
  | _ => ret tt
  end.

(** *** Read accessors *)

(** The loop of [VAASignatures] from index [i] on, appending to [sigs];
    [None] is the panic on a stored signature shorter than 65 bytes
    ([copy] fills [bs] with the first 65 bytes of a longer one). *)
Fixpoint VAASignatures_loop (keys : list Address) (i : Z)
    (stored : gmap Address bytes) (sigs : list VaaSignature)
  : option (list VaaSignature) :=
  match keys with
  | [] => Some sigs
  | a :: keys' =>
    match stored !! a with
    | Some s =>
      let bs := take 65 s in
      if decide (length bs <> 65%nat) then None
      else VAASignatures_loop keys' (i + 1) stored
             (sigs ++ [ {| vsIndex := uint8 i; vsSignature := bs |} ])
    | None => VAASignatures_loop keys' (i + 1) stored sigs
    end
  end.

Definition VAASignatures (s : reactorState) : option (list VaaSignature) :=
  VAASignatures_loop (Keys (gs c)) 0 (signatures s) [].

Definition HasQuorum (s : reactorState) : bool := hasQuorum_of s.

(** *** The driver loop *)

(** What [select] picks in one iteration of [Run]. *)
Inductive Event : Type :=
| CtxDone (err : string)
| LocalObservation (o : K)
| ForeignObservation (m : SignedObservation)
| Tick.

(** The result of [Run] on a finite schedule: it returned (with an error or
    [nil]), or it is still selecting when the schedule ends. *)
Inductive RunResult : Type :=
| Returned (err : error)
| Selecting.

Fixpoint Run_loop (events : list Event) : M RunResult :=
  match events with
  | [] => ret Selecting
  | CtxDone err :: _ => ret (Returned (Some err))
  | LocalObservation o :: rest => observed o;; Run_loop rest
  | ForeignObservation m :: rest => observationReceived m;; Run_loop rest
  | Tick :: rest =>
    r <- housekeeping;
    when (bool_decide (snd r <> None))
      (emit (Log "warn" "housekeeping failed"));;
    if fst r then
      emit (Log "debug" "reactor concluded; shutting down processing loop");;
      emit (Signal "done");;
      ret (Returned None)
    else Run_loop rest
  end.

Definition Run (events : list Event) : M RunResult :=
  emit (Signal "healthy");;
  st <- gets currentState;
  if State_eqb st StateFinalized then
    emit (Signal "done");;
    ret (Returned None)
  else Run_loop events.

(** One event handled on its own, outside the loop. *)
Definition handle (e : Event) : M unit :=
  match e with
  | CtxDone _ => ret tt
  | LocalObservation o => observed o
  | ForeignObservation m => observationReceived m
  | Tick => housekeeping;; ret tt
  end.

(** The worlds in which a handler can start or end: those reached from
    [w0] by handling events one after the other.  A handler that panics
    leaves the world it had reached, and the loop may be started again. *)
Inductive reachable (w0 : World) : World -> Prop :=
| reachable_start : reachable w0 w0
| reachable_handle w e :
    reachable w0 w -> reachable w0 (snd (handle e w)).

End Model.

(** [NewReactor]: the state of a fresh reactor.  Unset times are the zero
    [time.Time], the map is empty, the local signature is [nil]. *)
Definition NewReactor_state {K} (zeroK : K) : reactorState (K := K) :=
  {| currentState := StateInitialized; firstSeen := 0; lastObservation := 0;
     lastTransmission := 0; timeQuorum := 0; observation := zeroK;
     signatures := ∅; localSignature := [] |}.

Definition NewReactor (grp : string) (cfg : Config) (g : GuardianSet)
    (sender : option GossipSender) (hook : bool) : ConsensusReactor :=
  {| group := grp; gs := g; consensusSender := sender;
     stateTransitionHook := hook; config := cfg |}.

Definition NewWorld {K} (zeroK : K) : World (K := K) :=
  {| rstate := NewReactor_state zeroK; calls := O; trace := [] |}.

(** The handlers applied one after the other, with no loop around them. *)
Fixpoint deliver {K} (MessageID : K -> string) (SigningMsg : K -> bytes)
    (Ecrecover : bytes -> bytes -> option bytes) (Keccak256 : bytes -> bytes)
    (clock : nat -> Time) (c : ConsensusReactor) (events : list Event)
    (w : World) : World :=
  match events with
  | [] => w
  | e :: rest =>
    deliver MessageID SigningMsg Ecrecover Keccak256 clock c rest
      (snd (handle MessageID SigningMsg Ecrecover Keccak256 clock c e w))
  end.

(** The last [n] bytes of a byte string. *)
Definition last_bytes (n : nat) (b : bytes) : bytes := drop (length b - n) b.

(** The address of a recovered public key in the words of the spec: the
    last 20 bytes of [keccak256(pubkey[1:])]. *)
Definition recovered_address (Keccak256 : bytes -> bytes) (pk : bytes)
  : Address :=
  last_bytes 20 (Keccak256 (drop 1 pk)).

(** The states that record a quorum, and the terminal ones. *)
Definition quorum_state (st : State) : bool :=
  match st with
  | StateQuorum | StateQuorumUnobserved | StateFinalized | StateTimedOut =>
    true
  | _ => false
  end.

(** The entries [VAASignatures] is to emit for the guardians [keys],
    numbered from [i]: one for each position whose address has a stored
    signature, in the order of the guardian set. *)
Fixpoint expected_entries (keys : list Address) (i : Z)
    (stored : gmap Address bytes) : list VaaSignature :=
  match keys with
  | [] => []
  | a :: keys' =>
    match stored !! a with
    | Some s =>
      {| vsIndex := uint8 i; vsSignature := take 65 s |}
        :: expected_entries keys' (i + 1) stored
    | None => expected_entries keys' (i + 1) stored
    end
  end.

(** The effects other than a call of the gossip sender. *)
Definition not_sent (e : Effect) : Prop :=
  match e with
  | Sent _ => False
  | _ => True
  end.

(** The schedules on which the reactor receives no observation at all. *)
Definition no_observation {K} (e : Event (K := K)) : bool :=
  match e with
  | Tick | CtxDone _ => true
  | LocalObservation _ | ForeignObservation _ => false
  end.

(** *** The read accessors of a single field *)

(** [State], [Observation] and [LastObservation] lock the mutex and return
    one field. *)
Definition State_of {K} (s : reactorState (K := K)) : State :=
  currentState s.

Definition Observation_of {K} (s : reactorState (K := K)) : K :=
  observation s.

Definition LastObservation_of {K} (s : reactorState (K := K)) : Time :=
  lastObservation s.

(** *** The transitions a handler can make

    The assignments to [currentState] of each handler, read off its
    [switch] statements: the state before and the state after. *)

Definition local_edge (a b : State) : bool :=
  match a, b with
  | StateInitialized, (StateObserved | StateQuorum) => true
  | StateUnobserved, (StateObserved | StateQuorum) => true
  | StateQuorumUnobserved, StateQuorum => true
  | _, _ => false
  end.

Definition foreign_edge (a b : State) : bool :=
  match a, b with
  | StateInitialized, (StateUnobserved | StateQuorumUnobserved) => true
  | StateUnobserved, StateQuorumUnobserved => true
  | StateObserved, StateQuorum => true
  | _, _ => false
  end.

Definition tick_edge (a b : State) : bool :=
  match a, b with
  | (StateUnobserved | StateObserved | StateQuorumUnobserved), StateTimedOut =>
    true
  | StateQuorum, StateFinalized => true
  | _, _ => false
  end.

(** How far a state is from the start of the life cycle. *)
Definition rank (s : State) : nat :=
  match s with
  | StateInitialized => 0
  | StateUnobserved => 1
  | StateObserved | StateQuorumUnobserved => 2
  | StateQuorum => 3
  | StateFinalized | StateTimedOut => 4
  end.

(** The events that end or may end the loop. *)
Definition is_tick_or_done {K} (e : Event (K := K)) : bool :=
  match e with
  | Tick | CtxDone _ => true
  | _ => false
  end.

(** The hook dispatches of a trace, in order: the old and the new state. *)
Fixpoint hooks_of (t : list Effect) : list (State * State) :=
  match t with
  | [] => []
  | Hook a b :: t' => (a, b) :: hooks_of t'
  | _ :: t' => hooks_of t'
  end.

(** [chain s l s']: the dispatches [l] lead from [s] to [s'] step by
    step, each to a different state. *)
Fixpoint chain (s : State) (l : list (State * State)) (s' : State) : Prop :=
  match l with
  | [] => s = s'
  | (a, b) :: l' => a = s /\ a <> b /\ chain b l' s'
  end.

(** A sender that is missing, or whose every [Send] returns an error. *)
Definition sender_fails (c : ConsensusReactor) : Prop :=
  match consensusSender c with
  | None => True
  | Some sender => forall n m, Send sender n m <> None
  end.

(** The states that are entered on a quorum only. *)
Definition holds_quorum (st : State) : bool :=
  match st with
  | StateQuorum | StateQuorumUnobserved | StateFinalized => true
  | _ => false
  end.

(** A send carries what the reactor state holds: the digest and the id of
    the stored observation, the local signature, and an empty [TxHash]. *)
Definition sent_matches {K} (MessageID : K -> string)
    (SigningMsg : K -> bytes) (s : reactorState (K := K)) (e : Effect)
  : Prop :=
  match e with
  | Sent m =>
    Hash m = SigningMsg (observation s)
    /\ Signature m = localSignature s
    /\ TxHash m = []
    /\ MessageId m = MessageID (observation s)
  | _ => True
  end.

(** The messages handed to the gossip sender in a trace, in order. *)
Fixpoint sends_of (t : list Effect) : list SignedObservation :=
  match t with
  | [] => []
  | Sent m :: t' => m :: sends_of t'
  | _ :: t' => sends_of t'
  end.

(** How many local observations of a schedule pass the state guard of
    [observed] and return, when the schedule is handled from [w]. *)
Fixpoint accepted_locals {K} (MessageID : K -> string)
    (SigningMsg : K -> bytes) (Ecrecover : bytes -> bytes -> option bytes)
    (Keccak256 : bytes -> bytes) (clock : nat -> Time)
    (c : ConsensusReactor) (events : list Event) (w : World) : nat :=
  match events with
  | [] => 0
  | e :: rest =>
    (match e with
     | LocalObservation o =>
       match fst (observed MessageID SigningMsg clock c o w) with
       | Some _ =>
         if rejects_local (currentState (rstate w)) then 0 else 1
       | None => 0
       end
     | _ => 0
     end
     + accepted_locals MessageID SigningMsg Ecrecover Keccak256 clock c rest
         (snd (handle MessageID SigningMsg Ecrecover Keccak256 clock c e w)))
    %nat
  end.

(** The states that come after [StateObserved]. *)
Definition past_observed (st : State) : bool :=
  match st with
  | StateQuorum | StateFinalized | StateTimedOut => true
  | _ => false
  end.

End Reactor.

Import Reactor.

(** The handlers are run symbolically; these stay folded while they do. *)
Arguments BytesToAddress : simpl never.
Arguments slice_from : simpl never.
Arguments time_Sub : simpl never.
Arguments KeyIndex : simpl never.
Arguments CalculateQuorum : simpl never.
Arguments hasQuorum_of : simpl never.

(** ** A small concrete network

    Three guardians, string observations, and stand-ins for the
    cryptographic primitives: the recovered key is the signature behind a
    format byte, and the hash is its input cut or padded to 32 bytes, so
    that the signature [sigFor n] recovers to the address [addrN n]. *)

Module Scenario.

Definition byteN (n : nat) : byte :=
  match Byte.of_nat n with Some b => b | None => x00 end.

Definition addrN (n : nat) : Address := replicate 19 x00 ++ [byteN n].

Definition sigFor (n : nat) : bytes :=
  replicate 31 x00 ++ [byteN n] ++ replicate 33 x01.

Definition Ecrecover (hash sig : bytes) : option bytes :=
  if decide (length sig = 65%nat) then Some (x04 :: sig) else None.

Definition Keccak256 (b : bytes) : bytes := take 32 (b ++ replicate 32 x00).

Definition MessageID (o : string) : string := o.

Definition SigningMsg (o : string) : bytes := replicate 32 x00.

Definition clock (n : nat) : Time := 1000 + Z.of_nat n.

Definition signedBy (n : nat) : SignedObservation :=
  {| Addr := addrN n; Hash := replicate 32 x00; Signature := sigFor n;
     TxHash := []; MessageId := "msg" |}.

Definition guardians : GuardianSet :=
  {| Keys := [addrN 1; addrN 2; addrN 3] |}.

Definition signer : Signer :=
  {| signer_Address := fun _ => inl (addrN 1);
     signer_Sign := fun _ _ => inl (sigFor 1) |}.

(** Other signature bytes of guardian [n]: they recover to the same
    address, so [signedAgainBy n] is a second valid observation of it. *)
Definition sigAgain (n : nat) : bytes :=
  replicate 31 x00 ++ [byteN n] ++ replicate 33 x02.

Definition signedAgainBy (n : nat) : SignedObservation :=
  {| Addr := addrN n; Hash := replicate 32 x00; Signature := sigAgain n;
     TxHash := []; MessageId := "msg" |}.

(** The same clock read after the grace period. *)
Definition later (n : nat) : Time := 7000 + Z.of_nat n.

Definition sender : GossipSender := {| Send := fun _ _ => None |}.

Definition cfg (s : option Signer) : Config :=
  {| RetransmitFrequency := 5; QuorumGracePeriod := 5000;
     QuorumTimeout := 10; UnobservedTimeout := 10; cfgSigner := s |}.

(** A guardian with a signer, and an observer without one. *)
Definition guardian : ConsensusReactor :=
  NewReactor "grp" (cfg (Some signer)) guardians (Some sender) true.

Definition observer : ConsensusReactor :=
  NewReactor "grp" (cfg None) guardians (Some sender) true.

(** A guardian of a four-member set: three signatures are a quorum, and
    not yet the full set. *)
Definition council : ConsensusReactor :=
  NewReactor "grp" (cfg (Some signer))
    {| Keys := [addrN 1; addrN 2; addrN 3; addrN 4] |} (Some sender) true.

(** The only guardian of a one-member set: its own signature is a quorum. *)
Definition solo : ConsensusReactor :=
  NewReactor "grp" (cfg (Some signer)) {| Keys := [addrN 1] |}
    (Some sender) true.

(** A guardian set of 257 members, and a state that holds the signatures
    of its first and of its last member. *)
Definition addrW (n : nat) : Address :=
  replicate 18 x00 ++ [byteN (n / 256); byteN (n mod 256)].

Definition wide : ConsensusReactor :=
  NewReactor "grp" (cfg None) {| Keys := addrW <$> seq 0 257 |}
    (Some sender) true.

Definition wide_state : reactorState (K := string) :=
  set_signature (addrW 256) (sigFor 2)
    (set_signature (addrW 0) (sigFor 1) (NewReactor_state "")).

(** A guardian whose gossip sender is down, and one whose signer is. *)
Definition isolated : ConsensusReactor :=
  NewReactor "grp" (cfg (Some signer)) guardians
    (Some {| Send := fun _ _ => Some "down" |}) true.

Definition broken_signer : Signer :=
  {| signer_Address := fun _ => inl (addrN 1);
     signer_Sign := fun _ _ => inr "no key" |}.

Definition keyless : ConsensusReactor :=
  NewReactor "grp" (cfg (Some broken_signer)) guardians (Some sender) true.

Definition fresh : World := NewWorld "".

Definition world_in (st : State) : World :=
  {| rstate := set_currentState st (NewReactor_state "");
     calls := O; trace := [] |}.

End Scenario.

(** * Properties *)

Section Properties.

Context {K : Type}.
Variable MessageID : K -> string.
Variable SigningMsg : K -> bytes.
Variable Ecrecover : bytes -> bytes -> option bytes.
Variable Keccak256 : bytes -> bytes.
Variable clock : nat -> Time.
Variable c : ConsensusReactor.

Local Abbreviation observed := (observed MessageID SigningMsg clock c).
Local Abbreviation observationReceived :=
  (observationReceived (K := K) Ecrecover Keccak256 clock c).
Local Abbreviation housekeeping := (housekeeping MessageID SigningMsg clock c).
Local Abbreviation transmitSignature := (transmitSignature MessageID SigningMsg clock c).
Local Abbreviation handle := (handle MessageID SigningMsg Ecrecover Keccak256 clock c).
Local Abbreviation deliver := (deliver MessageID SigningMsg Ecrecover Keccak256 clock c).
Local Abbreviation Run := (Run MessageID SigningMsg Ecrecover Keccak256 clock c).
Local Abbreviation Run_loop :=
  (Run_loop MessageID SigningMsg Ecrecover Keccak256 clock c).
Local Abbreviation reachable :=
  (reachable MessageID SigningMsg Ecrecover Keccak256 clock c).
Local Abbreviation World := (World (K := K)).
Local Abbreviation reactorState := (reactorState (K := K)).

(** Symbolic execution of a handler: unfold the monad and the helpers. *)
Ltac exec :=
  unfold Reactor.observed, Reactor.observationReceived,
    Reactor.housekeeping, Reactor.transmitSignature,
    verifySignedObservation, timeOut, stateTransition, hasQuorum,
    time_Since, time_Now, when, bind, ret, gets, modify, emit, extern, panic
    in *;
  cbn [fst snd rstate calls trace currentState firstSeen lastObservation
       lastTransmission timeQuorum observation signatures localSignature
       set_currentState set_firstSeen set_lastObservation
       set_lastTransmission set_observation set_signature
       set_localSignature] in *.

(** Name the fields of a world, so that the reads of a handler compute. *)
Ltac open_world w :=
  let st := fresh "st" in
  destruct w as [[st ? ? ? ? ? ? ?] ? ?];
  cbn [rstate calls trace currentState firstSeen lastObservation
       lastTransmission timeQuorum observation signatures localSignature]
    in *.

(** Case split on the outcome of the quorum check met by the execution. *)
Ltac split_quorum H :=
  match goal with
  | |- context [negb (hasQuorum_of ?r ?s)] =>
    destruct (hasQuorum_of r s) eqn:H
  end.

Lemma hasQuorum_of_signatures (s s' : reactorState) :
  signatures s' = signatures s -> hasQuorum_of c s' = hasQuorum_of c s.
Proof. unfold hasQuorum_of. by intros ->. Qed.

Lemma terminal_rejects_local st :
  terminal st = true -> rejects_local st = true.
Proof. by destruct st. Qed.

Lemma terminal_rejects_foreign st :
  terminal st = true -> rejects_foreign st = true.
Proof. by destruct st. Qed.

Lemma observed_terminal o (w : World) :
  terminal (currentState (rstate w)) = true ->
  observed o w
  = (Some tt, {| rstate := rstate w; calls := calls w;
                 trace := trace w ++ [Log "debug" "observed"] |}).
Proof.
  intros Ht. exec. by rewrite (terminal_rejects_local _ Ht).
Qed.

Lemma observationReceived_terminal m (w : World) :
  terminal (currentState (rstate w)) = true ->
  observationReceived m w
  = (Some tt, {| rstate := rstate w; calls := calls w;
                 trace := (trace w
                           ++ [Metric "observations_received" [group c]])
                           ++ [Log "debug" "received foreign observation"] |}).
Proof.
  intros Ht. exec. by rewrite (terminal_rejects_foreign _ Ht).
Qed.

Lemma housekeeping_terminal (w : World) :
  terminal (currentState (rstate w)) = true ->
  housekeeping w
  = (Some (true, None),
     {| rstate := rstate w; calls := calls w;
        trace := (trace w ++ [Log "debug" "starting housekeeping"])
                 ++ [Log "debug" "housekeeping completed"] |}).
Proof.
  intros Ht. exec. by destruct (currentState (rstate w)).
Qed.

Lemma handle_terminal e (w : World) :
  terminal (currentState (rstate w)) = true ->
  rstate (snd (handle e w)) = rstate w /\ calls (snd (handle e w)) = calls w.
Proof.
  intros Ht. destruct e as [err|o|m|]; cbn [Reactor.handle].
  - done.
  - by rewrite observed_terminal.
  - by rewrite observationReceived_terminal.
  - unfold bind. by rewrite housekeeping_terminal.
Qed.

Lemma deliver_terminal events : forall w : World,
  terminal (currentState (rstate w)) = true ->
  rstate (deliver events w) = rstate w.
Proof.
  induction events as [|e rest IH]; intros w Ht; [done|].
  cbn [Reactor.deliver].
  destruct (handle_terminal e w Ht) as [Hs _].
  rewrite IH; rewrite Hs; done.
Qed.

(** *** The driver loop preserves what the handlers preserve *)

Lemma Run_loop_invariant (P : World -> Prop) :
  (forall e w, P w -> P (snd (handle e w))) ->
  (forall ef w, (forall m, ef <> Sent m) -> P w -> P (snd (emit ef w))) ->
  forall events w, P w -> P (snd (Run_loop events w)).
Proof.
  intros Hh He. induction events as [|e rest IH]; intros w Hw; [done|].
  pose proof (Hh e w Hw) as Hstep.
  destruct e as [err|o|m|]; cbn [Reactor.Run_loop Reactor.handle] in *.
  - done.
  - unfold bind in *.
    destruct (observed o w) as [[[]|] w']; cbn [fst snd] in *;
      [by apply IH | done].
  - unfold bind in *.
    destruct (observationReceived m w) as [[[]|] w']; cbn [fst snd] in *;
      [by apply IH | done].
  - unfold bind at 1. unfold bind at 1 in Hstep.
    destruct (housekeeping w) as [[[t err]|] w']; cbn [fst snd] in *; auto.
    assert (Hwhen : forall b ef w0, (forall m, ef <> Sent m) -> P w0 ->
              P (snd (when b (emit ef) w0))
              /\ fst (when (K := K) b (emit ef) w0) = Some tt).
    { intros [] ef w0 Hef Hw0; cbn [when]; split; try done; by apply He. }
    unfold bind at 1.
    destruct (Hwhen (bool_decide (err <> None))
                (Log "warn" "housekeeping failed") w' ltac:(done) Hstep)
      as [HP Hfst].
    destruct (when _ _ w') as [r w'']; cbn [fst snd] in *; subst r.
    destruct t; [|by apply IH].
    unfold bind, ret. cbn [emit fst snd].
    apply (He (Signal "done")
             (snd (emit (Log "debug"
                "reactor concluded; shutting down processing loop") w'')));
      [done|].
    by apply He.
Qed.

Lemma Run_invariant (P : World -> Prop) :
  (forall e w, P w -> P (snd (handle e w))) ->
  (forall ef w, (forall m, ef <> Sent m) -> P w -> P (snd (emit ef w))) ->
  forall events w, P w -> P (snd (Run events w)).
Proof.
  intros Hh He events w Hw. unfold Reactor.Run, bind, gets.
  cbn [emit fst snd].
  assert (Hw' : P (snd (emit (Signal "healthy") w))) by (apply He; done).
  cbn [emit snd] in Hw'. cbn [rstate].
  destruct (State_eqb (currentState (rstate w)) StateFinalized).
  - cbn. apply (He (Signal "done") _ ltac:(done) Hw').
  - by apply Run_loop_invariant.
Qed.

(** C1: once the reactor is in [StateFinalized] or [StateTimedOut], every
    event leaves the reactor state as it is.  The local and the foreign
    handler return at their state guard, having only logged or counted the
    event; housekeeping reports [terminate = true]; no collaborator is
    called; and so the state stays the same under any further sequence of
    events, delivered directly or through [Run]. *)
Theorem terminal_state_is_frozen (w : World) :
  terminal (currentState (rstate w)) = true ->
  (forall o, observed o w
     = (Some tt, {| rstate := rstate w; calls := calls w;
                    trace := trace w ++ [Log "debug" "observed"] |}))
  /\ (forall m, observationReceived m w
       = (Some tt,
          {| rstate := rstate w; calls := calls w;
             trace := (trace w ++ [Metric "observations_received" [group c]])
                      ++ [Log "debug" "received foreign observation"] |}))
  /\ housekeeping w
     = (Some (true, None),
        {| rstate := rstate w; calls := calls w;
           trace := (trace w ++ [Log "debug" "starting housekeeping"])
                    ++ [Log "debug" "housekeeping completed"] |})
  /\ (forall events, rstate (deliver events w) = rstate w)
  /\ (forall events, rstate (snd (Run events w)) = rstate w).
Proof.
  intros Ht. repeat split.
  - intros o. by apply observed_terminal.
  - intros m. by apply observationReceived_terminal.
  - by apply housekeeping_terminal.
  - intros events. by apply deliver_terminal.
  - intros events.
    apply (Run_invariant (fun w' => rstate w' = rstate w)); [| |done].
    + intros e w' Hw'. rewrite <- Hw' in Ht.
      destruct (handle_terminal e w' Ht) as [-> _]. done.
    + intros ef w' _ Hw'. done.
Qed.

(** *** Housekeeping before the first observation *)

Lemma housekeeping_initialized (w : World) :
  currentState (rstate w) = StateInitialized ->
  housekeeping w
  = (Some (false, None),
     {| rstate := rstate w; calls := calls w;
        trace := (trace w ++ [Log "debug" "starting housekeeping"])
                 ++ [Log "debug" "housekeeping completed"] |}).
Proof. intros Hs. exec. by rewrite Hs. Qed.

Lemma Run_loop_initialized events : forall w : World,
  currentState (rstate w) = StateInitialized ->
  forallb no_observation events = true ->
  rstate (snd (Run_loop events w)) = rstate w
  /\ calls (snd (Run_loop events w)) = calls w
  /\ fst (Run_loop events w) <> None
  /\ fst (Run_loop events w) <> Some (Returned None).
Proof.
  induction events as [|e rest IH]; intros w Hs Hev; [done|].
  cbn [forallb] in Hev. apply andb_prop in Hev as [He Hrest].
  destruct e as [err|o|m|]; try discriminate.
  - done.
  - set (w1 := {| rstate := rstate w; calls := calls w;
                  trace := (trace w ++ [Log "debug" "starting housekeeping"])
                           ++ [Log "debug" "housekeeping completed"] |}).
    assert (Heq : Run_loop (Tick :: rest) w = Run_loop rest w1).
    { cbn [Reactor.Run_loop]. unfold bind at 1.
      rewrite (housekeeping_initialized w Hs).
      cbn [fst snd]. unfold bind at 1.
      rewrite bool_decide_eq_false_2 by (intros H; by apply H).
      done. }
    rewrite Heq. by apply (IH w1).
Qed.

(** C10: a tick handled in [StateInitialized] changes no field of the
    reactor state, calls no collaborator and returns [terminate = false];
    hence a reactor that receives no local and no foreign observation stays
    in its initial state, is never terminal, and [Run] never returns from a
    terminal housekeeping round. *)
Theorem housekeeping_initialized_is_idle (w : World) :
  currentState (rstate w) = StateInitialized ->
  housekeeping w
  = (Some (false, None),
     {| rstate := rstate w; calls := calls w;
        trace := (trace w ++ [Log "debug" "starting housekeeping"])
                 ++ [Log "debug" "housekeeping completed"] |})
  /\ forall events, forallb no_observation events = true ->
       rstate (snd (Run events w)) = rstate w
       /\ terminal (currentState (rstate (snd (Run events w)))) = false
       /\ fst (Run events w) <> Some (Returned None).
Proof.
  intros Hs. split; [by apply housekeeping_initialized|].
  intros events Hev. unfold Reactor.Run, bind, gets.
  cbn [emit fst snd rstate].
  rewrite Hs. cbn [State_eqb State_string String.eqb Ascii.eqb Bool.eqb].
  set (w1 := {| rstate := rstate w; calls := calls w;
                trace := trace w ++ [Signal "healthy"] |}).
  destruct (Run_loop_initialized events w1 Hs Hev) as (Hr & _ & _ & Hn).
  rewrite Hr. cbn [w1 rstate]. by rewrite Hs.
Qed.

(** *** Housekeeping in [StateObserved] *)

(** C9: on a tick handled in [StateObserved] on which both the quorum
    timeout and the retransmission period have elapsed, housekeeping first
    times out, and then still runs the retransmission branch: with a signer
    and a sender that answer, the signature is sent and [lastTransmission]
    is stamped although [currentState] is already [StateTimedOut].  The
    tick itself reports [terminate = false]. *)
Theorem timed_out_tick_still_retransmits (w : World) signer sender addr :
  currentState (rstate w) = StateObserved ->
  cfgSigner (config c) = Some signer ->
  consensusSender c = Some sender ->
  let n := calls w in
  let signedO := {| Addr := addr; Hash := SigningMsg (observation (rstate w));
                    Signature := localSignature (rstate w); TxHash := [];
                    MessageId := MessageID (observation (rstate w)) |} in
  time_Sub (clock n) (lastObservation (rstate w)) > QuorumTimeout (config c) ->
  time_Sub (clock (S n)) (lastTransmission (rstate w))
    > RetransmitFrequency (config c) ->
  signer_Address signer (S (S n)) = inl addr ->
  Send sender (S (S (S n))) signedO = None ->
  housekeeping w
  = (Some (false, None),
     {| rstate := set_lastTransmission (clock (S (S (S (S n)))))
                    (set_currentState StateTimedOut (rstate w));
        calls := S (S (S (S (S n))));
        trace := trace w
          ++ [Log "debug" "starting housekeeping"; Log "debug" "timing out";
              Metric "reactor_timed_out" [group c; "observed"];
              Log "debug" "state transition"]
          ++ (if stateTransitionHook c
              then [Hook StateObserved StateTimedOut] else [])
          ++ [Log "debug" "retransmitting";
              Metric "reactor_resubmission" [group c];
              Sent signedO;
              Metric "observations_broadcast" [group c];
              Log "debug" "housekeeping completed"] |}).
Proof.
  intros Hs Hsg Hsd n signedO Hq Hr Haddr Hsend. subst n signedO.
  open_world w. subst. exec. rewrite Hsg, Hsd.
  apply Z.gt_lt, Z.gtb_lt in Hq. rewrite Hq. cbn.
  destruct (stateTransitionHook c); cbn.
  all: apply Z.gt_lt, Z.gtb_lt in Hr; rewrite Hr; cbn.
  all: rewrite Haddr; cbn; rewrite Hsend; cbn.
  all: rewrite <- !app_assoc; reflexivity.
Qed.

(** *** Housekeeping in [StateQuorum] *)

Lemma timeOut_quorum (w : World) :
  currentState (rstate w) = StateQuorum ->
  rstate (snd (timeOut c w)) = set_currentState StateFinalized (rstate w)
  /\ calls (snd (timeOut c w)) = calls w
  /\ fst (timeOut c w) = Some tt.
Proof.
  intros Hs. open_world w. subst. exec. cbn.
  by destruct (stateTransitionHook c).
Qed.

(** C6: a tick handled in [StateQuorum] leads to [StateFinalized] exactly
    when the time since [timeQuorum] exceeds [QuorumGracePeriod] or the
    number of stored signatures equals the size of the guardian set, and
    leaves the state record alone otherwise.  A full signature set
    therefore finalizes whatever the grace period, and [timeOut] called in
    [StateQuorum] ends in [StateFinalized], never in [StateTimedOut]. *)
Theorem quorum_tick_finalizes (w : World) :
  currentState (rstate w) = StateQuorum ->
  let since := time_Sub (clock (calls w)) (timeQuorum (rstate w)) in
  let finalize :=
    since > QuorumGracePeriod (config c)
    \/ length (Keys (gs c)) = size (signatures (rstate w)) in
  let w' := snd (housekeeping w) in
  fst (housekeeping w) = Some (false, None)
  /\ (currentState (rstate w') = StateFinalized <-> finalize)
  /\ (finalize -> rstate w' = set_currentState StateFinalized (rstate w))
  /\ (~ finalize -> rstate w' = rstate w)
  /\ (length (Keys (gs c)) = size (signatures (rstate w)) ->
      currentState (rstate w') = StateFinalized)
  /\ currentState (rstate w') <> StateTimedOut
  /\ currentState (rstate (snd (timeOut c w))) = StateFinalized.
Proof.
  intros Hs since finalize w'.
  assert (Hcases :
    fst (housekeeping w) = Some (false, None)
    /\ (finalize /\ rstate w' = set_currentState StateFinalized (rstate w)
        \/ ~ finalize /\ rstate w' = rstate w)).
  { subst w' finalize since. open_world w. subst. exec.
    match goal with
    | |- context [?d >? QuorumGracePeriod (config c)] =>
      destruct (Z.gtb_spec d (QuorumGracePeriod (config c))) as [Hgt|Hle]
    end; cbn [orb].
    - cbn. split; [by destruct (stateTransitionHook c)|].
      left. split; [left; lia|]. by destruct (stateTransitionHook c).
    - case_bool_decide as Hn.
      + cbn. split; [by destruct (stateTransitionHook c)|].
        left. split; [by right|]. by destruct (stateTransitionHook c).
      + cbn. split; [done|]. right. split; [|done].
        intros [?|?]; [lia|done]. }
  destruct Hcases as [Hret [[Hf Hw]|[Hf Hw]]].
  - repeat split; try done.
    + by rewrite Hw.
    + by rewrite Hw.
    + by rewrite Hw.
    + by apply timeOut_quorum in Hs as [-> _].
  - repeat split; try done.
    + rewrite Hw, Hs. done.
    + intros Hn. destruct Hf. by right.
    + rewrite Hw, Hs. done.
    + by apply timeOut_quorum in Hs as [-> _].
Qed.

(** *** The quorum predicate *)

Lemma CalculateQuorum_spec n k :
  0 <= n -> (k >= CalculateQuorum n <-> 3 * k > 2 * n).
Proof.
  intros Hn. unfold CalculateQuorum.
  pose proof (Z.div_mod (n * 2) 3 ltac:(lia)) as Hdm.
  pose proof (Z.mod_pos_bound (n * 2) 3 ltac:(lia)) as Hm.
  lia.
Qed.

(** C2: [hasQuorum] answers true exactly when the number of stored
    signatures is at least [floor(n*2/3) + 1], [n] the size of the guardian
    set, that is, when it is strictly more than two thirds of [n]; for 19
    guardians the threshold is 13.  The accessor and the helper read the
    state without touching it. *)
Theorem hasQuorum_threshold (s : reactorState) (w : World) :
  let n := Z.of_nat (length (Keys (gs c))) in
  let k := Z.of_nat (size (signatures s)) in
  (hasQuorum_of c s = true <-> k >= n * 2 / 3 + 1)
  /\ (hasQuorum_of c s = true <-> 3 * k > 2 * n)
  /\ HasQuorum c s = hasQuorum_of c s
  /\ hasQuorum c w = (Some (hasQuorum_of c (rstate w)), w)
  /\ CalculateQuorum 19 = 13.
Proof.
  intros n k.
  assert (H1 : hasQuorum_of c s = true <-> k >= n * 2 / 3 + 1).
  { unfold hasQuorum_of, CalculateQuorum. fold n k.
    rewrite Z.geb_leb, Z.leb_le. lia. }
  repeat split; try apply H1; try done.
  - intros H. apply H1 in H.
    by apply (CalculateQuorum_spec n k ltac:(lia)).
  - intros H. apply H1.
    by apply (CalculateQuorum_spec n k ltac:(lia)).
Qed.

(** *** The signature verifier *)

Lemma length_BytesToAddress b : length (BytesToAddress b) = AddressLength.
Proof.
  unfold BytesToAddress, slice_from, AddressLength.
  destruct (Nat.ltb_spec 20 (length b)).
  - rewrite length_app, length_replicate, length_drop. lia.
  - rewrite length_app, length_replicate. lia.
Qed.

Lemma BytesToAddress_20 b :
  length b = AddressLength -> BytesToAddress b = b.
Proof.
  unfold BytesToAddress, AddressLength. intros Hb.
  rewrite Hb. change (20 <? 20)%nat with false. cbv iota.
  rewrite Hb. done.
Qed.

Lemma BytesToAddress_keccak b :
  length b = 32%nat ->
  BytesToAddress (slice_from 12 b) = last_bytes 20 b.
Proof.
  intros Hb. unfold last_bytes. rewrite Hb.
  apply BytesToAddress_20. unfold slice_from, AddressLength.
  rewrite length_drop. lia.
Qed.

Lemma index_of_Some a l : forall i, is_Some (index_of a l i) <-> a ∈ l.
Proof.
  induction l as [|k l IH]; intros i; cbn [index_of].
  - split; [by intros [? ?]|]. by intros ?%elem_of_nil.
  - destruct (decide (k = a)) as [->|Hne]; rewrite elem_of_cons.
    + split; [by left|intros _; by eexists].
    + rewrite IH. split; [by right|]. intros [?|?]; [congruence|done].
Qed.

Lemma KeyIndex_member g a : is_Some (KeyIndex g a) <-> a ∈ Keys g.
Proof. apply index_of_Some. Qed.

(** The verifier reads nothing of the world: it may only count a failure. *)
Lemma verifySignedObservation_frame grp m g (w : World) :
  rstate (snd (verifySignedObservation Ecrecover Keccak256 grp m g w))
  = rstate w
  /\ calls (snd (verifySignedObservation Ecrecover Keccak256 grp m g w))
     = calls w
  /\ forall w' : World,
       fst (verifySignedObservation Ecrecover Keccak256 grp m g w')
       = fst (verifySignedObservation Ecrecover Keccak256 grp m g w).
Proof.
  unfold verifySignedObservation.
  destruct (Ecrecover _ _); [|done].
  destruct (decide _); [done|].
  by destruct (KeyIndex _ _).
Qed.

Local Abbreviation verified m w :=
  (fst (verifySignedObservation (K := K) Ecrecover Keccak256 (group c) m
          (gs c) w) = Some None).

(** *** The foreign-observation handler, by cases *)

(** Either the observation is dropped and nothing but the trace changes, or
    it passed the state guard and the verifier, its address is new, and its
    signature is stored under that address. *)
Lemma observationReceived_cases m (w : World) :
  let a := BytesToAddress (Addr m) in
  let w' := snd (observationReceived m w) in
  fst (observationReceived m w) = Some tt
  /\ (rstate w' = rstate w /\ calls w' = calls w
        /\ (rejects_foreign (currentState (rstate w)) = true
            \/ ~ verified m w
            \/ is_Some (signatures (rstate w) !! a))
      \/ rejects_foreign (currentState (rstate w)) = false
         /\ verified m w
         /\ signatures (rstate w) !! a = None
         /\ signatures (rstate w') = <[a := Signature m]> (signatures (rstate w))
         /\ lastObservation (rstate w') = clock (calls w)
         /\ localSignature (rstate w') = localSignature (rstate w)).
Proof.
  open_world w. exec. destruct (stateTransitionHook c).
  all: destruct (rejects_foreign st) eqn:Hrej; cbn; [by split; [|left; auto]|].
  all: destruct (Ecrecover (Hash m) (Signature m)) as [pk|]; cbn;
    [|by split; [|left; auto]].
  all: destruct (decide _) as [Hne|Heq]; cbn; [by split; [|left; auto]|].
  all: destruct (KeyIndex _ _) as [i|]; cbn; [|by split; [|left; auto]].
  all: match goal with
  | |- context [@lookup _ _ (gmap _ _) _ ?a ?sigs] =>
    destruct (sigs !! a) as [old|] eqn:Hlook
  end; cbn; [by split; [|left; eauto 6]|].
  all: destruct st; try discriminate Hrej; cbn; split_quorum Hq; cbn.
  all: split; [done|right; repeat split; done].
Qed.

Lemma verifySignedObservation_result grp m g (w : World) :
  (forall b, length (Keccak256 b) = 32%nat) ->
  let addr := BytesToAddress (Addr m) in
  match Ecrecover (Hash m) (Signature m) with
  | None =>
    verifySignedObservation Ecrecover Keccak256 grp m g w
    = (Some (Some invalid_signature),
       snd (emit (Metric "observations_failed" [grp; "invalid_signature"]) w))
  | Some pk =>
    if decide (recovered_address Keccak256 pk = addr) then
      if decide (addr ∈ Keys g) then
        verifySignedObservation Ecrecover Keccak256 grp m g w = (Some None, w)
      else
        verifySignedObservation Ecrecover Keccak256 grp m g w
        = (Some (Some unknown_guardian),
           snd (emit (Metric "observations_failed" [grp; "unknown_guardian"])
                  w))
    else
      verifySignedObservation Ecrecover Keccak256 grp m g w
      = (Some (Some pubkey_mismatch),
         snd (emit (Metric "observations_failed" [grp; "pubkey_mismatch"]) w))
  end.
Proof.
  intros Hk addr. unfold verifySignedObservation, recovered_address.
  destruct (Ecrecover _ _) as [pk|]; [|done].
  change (drop 1 pk) with (slice_from 1 pk).
  rewrite (BytesToAddress_keccak _ (Hk _)). fold addr.
  destruct (decide (addr <> _)) as [Hne|Heq].
  - rewrite decide_False by congruence. done.
  - apply dec_stable in Heq. rewrite decide_True by done.
    destruct (KeyIndex g addr) as [i|] eqn:Hi.
    + rewrite decide_True; [done|]. apply KeyIndex_member. by eexists.
    + rewrite decide_False; [done|]. intros Hin%KeyIndex_member.
      rewrite Hi in Hin. by destruct Hin.
Qed.

(** C4: the verifier accepts exactly the observations whose signature
    recovers to a public key, whose key has the address [addr] (the last 20
    bytes of the hash of the key without its first byte), and whose [addr]
    is in the guardian set; each failure is reported, and counted, under
    its own reason.  The foreign handler changes the signature map only for
    an observation the verifier accepts, so every stored foreign signature
    recovers to the address it is stored under, a member of the guardian
    set.  [addr] is the address form of the [Addr] field, the field itself
    when that has 20 bytes. *)
Theorem verification_exact grp m g (w : World) :
  (forall b, length (Keccak256 b) = 32%nat) ->
  let addr := BytesToAddress (Addr m) in
  let recovered pk := Ecrecover (Hash m) (Signature m) = Some pk in
  let r := fst (verifySignedObservation Ecrecover Keccak256 grp m g w) in
  let w' := snd (verifySignedObservation Ecrecover Keccak256 grp m g w) in
  (r = Some (Some invalid_signature)
   <-> Ecrecover (Hash m) (Signature m) = None)
  /\ (r = Some (Some pubkey_mismatch)
      <-> exists pk, recovered pk /\ recovered_address Keccak256 pk <> addr)
  /\ (r = Some (Some unknown_guardian)
      <-> exists pk, recovered pk /\ recovered_address Keccak256 pk = addr
                     /\ addr ∉ Keys g)
  /\ (r = Some None
      <-> exists pk, recovered pk /\ recovered_address Keccak256 pk = addr
                     /\ addr ∈ Keys g)
  /\ (forall e, r = Some (Some e) ->
        trace w' = trace w ++ [Metric "observations_failed"
                                 [grp; VerifyError_string e]])
  /\ (length (Addr m) = AddressLength -> addr = Addr m)
  /\ (forall w0 : World,
        signatures (rstate (snd (observationReceived m w0)))
          <> signatures (rstate w0) ->
        verified m w0
        /\ signatures (rstate (snd (observationReceived m w0)))
           = <[addr := Signature m]> (signatures (rstate w0))
        /\ exists pk, recovered pk /\ recovered_address Keccak256 pk = addr
                       /\ addr ∈ Keys (gs c)).
Proof.
  intros Hk addr recovered r w'.
  pose proof (verifySignedObservation_result grp m g w Hk) as Hres.
  cbv zeta in Hres. fold addr in Hres. subst r w' recovered.
  assert (Hhandler : forall w0 : World,
    signatures (rstate (snd (observationReceived m w0)))
      <> signatures (rstate w0) ->
    verified m w0
    /\ signatures (rstate (snd (observationReceived m w0)))
       = <[addr := Signature m]> (signatures (rstate w0))
    /\ exists pk, Ecrecover (Hash m) (Signature m) = Some pk
                   /\ recovered_address Keccak256 pk = addr
                   /\ addr ∈ Keys (gs c)).
  { intros w0 Hch.
    destruct (observationReceived_cases m w0)
      as [_ [(Hsame & _)|(_ & Hv & _ & Hins & _)]].
    { by rewrite Hsame in Hch. }
    split; [done|]. split; [done|].
    pose proof (verifySignedObservation_result (group c) m (gs c) w0 Hk) as H0.
    cbv zeta in H0. fold addr in H0.
    destruct (Ecrecover _ _) as [pk|]; [|by rewrite H0 in Hv].
    destruct (decide (_ = addr)); [|by rewrite H0 in Hv].
    destruct (decide (addr ∈ Keys (gs c))); [|by rewrite H0 in Hv].
    by exists pk. }
  assert (Haddr : length (Addr m) = AddressLength -> addr = Addr m)
    by apply BytesToAddress_20.
  clearbody addr.
  destruct (Ecrecover (Hash m) (Signature m)) as [pk|];
    [destruct (decide (_ = addr)) as [Heq|Hne];
       [destruct (decide (addr ∈ Keys g)) as [Hin|Hnin]|]|].
  all: rewrite Hres; cbn [fst snd emit trace]; split_and!; try done.
  all: try (intros e [= <-]; done).
  all: clear Hhandler Hres Haddr.
  all: split;
    [ intros Hr; try discriminate Hr; exists pk; by auto
    | intros (pk0 & Hpk & Hrest); try discriminate Hpk;
      injection Hpk as <-; try reflexivity; exfalso; tauto ].
Qed.

(** C3: the map keeps one signature per address, and a foreign observation
    whose address already has a signature is dropped: the reactor state and
    the call counter are as before.  So of two foreign observations of one
    guardian, the first of which is accepted and new, only the first is
    stored: the count grows by exactly one and the stored bytes are those
    of the first. *)
Theorem duplicate_foreign_observation_dropped :
  (forall w : World, NoDup (map_to_list (signatures (rstate w))).*1)
  /\ (forall (w : World) m,
        is_Some (signatures (rstate w) !! BytesToAddress (Addr m)) ->
        fst (observationReceived m w) = Some tt
        /\ rstate (snd (observationReceived m w)) = rstate w
        /\ calls (snd (observationReceived m w)) = calls w)
  /\ (forall (w : World) m1 m2,
        let a := BytesToAddress (Addr m1) in
        let w1 := snd (observationReceived m1 w) in
        let w2 := snd (observationReceived m2 w1) in
        BytesToAddress (Addr m2) = a ->
        rejects_foreign (currentState (rstate w)) = false ->
        verified m1 w ->
        signatures (rstate w) !! a = None ->
        signatures (rstate w1) = <[a := Signature m1]> (signatures (rstate w))
        /\ size (signatures (rstate w2)) = S (size (signatures (rstate w)))
        /\ signatures (rstate w2) !! a = Some (Signature m1)
        /\ rstate w2 = rstate w1).
Proof.
  assert (Hdrop : forall (w : World) m,
            is_Some (signatures (rstate w) !! BytesToAddress (Addr m)) ->
            fst (observationReceived m w) = Some tt
            /\ rstate (snd (observationReceived m w)) = rstate w
            /\ calls (snd (observationReceived m w)) = calls w).
  { intros w m Hin.
    destruct (observationReceived_cases m w)
      as [Hok [(Hr & Hc & _)|(_ & _ & Hnone & _)]]; [done|].
    rewrite Hnone in Hin. by destruct Hin. }
  split; [intros w; apply NoDup_fst_map_to_list|]. split; [done|].
  intros w m1 m2 a w1 w2 Hsame Hacc Hver Hnew.
  destruct (observationReceived_cases m1 w)
    as [_ [(_ & _ & [Hrej|[Hnv|Hold]])|(_ & _ & _ & Hins & _)]].
  - congruence.
  - done.
  - fold a in Hold. rewrite Hnew in Hold. by destruct Hold.
  - fold a w1 in Hins.
    assert (Hin : is_Some (signatures (rstate w1) !! BytesToAddress (Addr m2))).
    { rewrite Hsame, Hins, lookup_insert_eq. by eexists. }
    destruct (Hdrop w1 m2 Hin) as (_ & Hr & _). fold w2 in Hr.
    rewrite Hr, Hins. split; [done|].
    split; [by apply map_size_insert_None|].
    split; [by rewrite lookup_insert_eq|done].
Qed.

(** *** Rules of the handler monad *)

Section Rules.

Context {A B : Type}.
Implicit Types (Q : option A -> World -> Prop) (w : World).

Lemma wp_ret (a : A) Q w : Q (Some a) w -> wp (ret a) Q w.
Proof. done. Qed.

Lemma wp_panic Q w : Q None w -> wp panic Q w.
Proof. done. Qed.

Lemma wp_bind (m : M B) (k : B -> M A) Q w :
  wp m (fun r w' => match r with
                    | Some b => wp (k b) Q w'
                    | None => Q None w'
                    end) w ->
  wp (bind m k) Q w.
Proof. unfold wp, bind. by destruct (m w) as [[b|] w']. Qed.

Lemma wp_mono (m : M A) (Q Q' : option A -> World -> Prop) w :
  wp m Q' w -> (forall r w', Q' r w' -> Q r w') -> wp m Q w.
Proof. unfold wp. auto. Qed.

Lemma wp_gets (f : reactorState -> A) Q w :
  Q (Some (f (rstate w))) w -> wp (gets f) Q w.
Proof. done. Qed.

Lemma wp_extern (oracle : nat -> A) Q w :
  Q (Some (oracle (calls w)))
    {| rstate := rstate w; calls := S (calls w); trace := trace w |} ->
  wp (extern oracle) Q w.
Proof. done. Qed.

End Rules.

Lemma wp_modify f (Q : option unit -> World -> Prop) (w : World) :
  Q (Some tt) {| rstate := f (rstate w); calls := calls w; trace := trace w |}
  -> wp (modify f) Q w.
Proof. done. Qed.

Lemma wp_emit e (Q : option unit -> World -> Prop) (w : World) :
  Q (Some tt)
    {| rstate := rstate w; calls := calls w; trace := trace w ++ [e] |} ->
  wp (emit e) Q w.
Proof. done. Qed.

(** One step of symbolic execution of the computation under [wp]. *)
Ltac wp_simpl :=
  cbn [fst snd rstate calls trace currentState firstSeen lastObservation
       lastTransmission timeQuorum observation signatures localSignature
       set_currentState set_firstSeen set_lastObservation
       set_lastTransmission set_observation set_signature
       set_localSignature negb].

(** Use a hypothesis that fixes the value of [x]. *)
Ltac known x :=
  match goal with
  | H : x = _ |- _ => rewrite H
  end.

(** Evaluate a test on a state that is known. *)
Ltac decided b :=
  let v := eval vm_compute in b in
  lazymatch v with
  | true => change b with true; cbv iota
  | false => change b with false; cbv iota
  end.

Ltac wp_step :=
  lazymatch goal with
  | |- wp (bind _ _) _ _ => apply wp_bind
  | |- wp (ret _) _ _ => apply wp_ret
  | |- wp panic _ _ => apply wp_panic
  | |- wp (gets _) _ _ => apply wp_gets
  | |- wp (extern _) _ _ => apply wp_extern
  | |- wp (modify _) _ _ => apply wp_modify
  | |- wp (emit _) _ _ => apply wp_emit
  | |- wp (when _ _) _ _ => unfold when at 1
  | |- wp (if State_eqb ?x ?y then _ else _) _ _ =>
    first [ decided (State_eqb x y) | destruct (State_eqb x y) eqn:? ]
  | |- wp (if rejects_local ?x then _ else _) _ _ =>
    first [ decided (rejects_local x) | destruct (rejects_local x) eqn:? ]
  | |- wp (if rejects_foreign ?x then _ else _) _ _ =>
    first [ decided (rejects_foreign x) | destruct (rejects_foreign x) eqn:? ]
  | |- wp (if bool_decide _ then _ else _) _ _ => case_bool_decide
  | |- wp (if negb ?b then _ else _) _ _ =>
    first [ known b | destruct b eqn:? ]
  | |- wp (if ?b then _ else _) _ _ => first [ known b | destruct b eqn:? ]
  | |- wp (match ?x with _ => _ end) _ _ =>
    first [ known x | destruct x eqn:? ]
  | |- wp (time_Now _) _ _ => unfold time_Now at 1
  | |- wp (time_Since _ _) _ _ => unfold time_Since at 1
  | |- wp (hasQuorum _) _ _ => unfold hasQuorum at 1
  | |- wp (stateTransition _ _) _ _ => unfold stateTransition at 1
  | |- wp (timeOut _) _ _ => unfold timeOut at 1
  | |- wp (Reactor.transmitSignature _ _ _ _) _ _ =>
    unfold Reactor.transmitSignature at 1
  | |- wp (verifySignedObservation _ _ _ _ _) _ _ =>
    unfold verifySignedObservation at 1
  | |- wp (Reactor.housekeeping _ _ _ _) _ _ =>
    unfold Reactor.housekeeping at 1
  | |- wp (Reactor.observed _ _ _ _ _) _ _ => unfold Reactor.observed at 1
  | |- wp (Reactor.observationReceived _ _ _ _ _) _ _ =>
    unfold Reactor.observationReceived at 1
  end; wp_simpl.

Ltac wp_run := repeat wp_step.

(** *** Quorum is recorded in the state *)

Local Abbreviation quorum_recorded w :=
  (hasQuorum_of c (rstate w) = true ->
   quorum_state (currentState (rstate w)) = true).

Lemma observationReceived_quorum m (w : World) :
  let w' := snd (observationReceived m w) in
  quorum_recorded w'
  \/ signatures (rstate w') = signatures (rstate w)
     /\ currentState (rstate w') = currentState (rstate w).
Proof.
  cbv zeta.
  open_world w. exec. destruct (stateTransitionHook c).
  all: destruct (rejects_foreign st) eqn:Hrej; cbn; [by right|].
  all: destruct (Ecrecover (Hash m) (Signature m)) as [pk|]; cbn;
    [|by right].
  all: destruct (decide _) as [Hne|Heq]; cbn; [by right|].
  all: destruct (KeyIndex _ _) as [i|]; cbn; [|by right].
  all: match goal with
  | |- context [@lookup _ _ (gmap _ _) _ ?a ?sigs] =>
    destruct (sigs !! a) as [old|] eqn:Hlook
  end; cbn; [by right|].
  all: destruct st; try discriminate Hrej; cbn; split_quorum Hq; cbn.
  all: left; unfold hasQuorum_of in *; cbn in *; congruence.
Qed.

(** Housekeeping touches two fields only: [currentState], which it may
    move to a terminal state, and [lastTransmission]. *)
Lemma housekeeping_frame (w : World) :
  wp housekeeping (fun r w' =>
    r <> None
    /\ signatures (rstate w') = signatures (rstate w)
    /\ localSignature (rstate w') = localSignature (rstate w)
    /\ (currentState (rstate w') = currentState (rstate w)
        \/ terminal (currentState (rstate w')) = true)) w.
Proof.
  open_world w. destruct st; wp_run; auto.
Qed.

Lemma terminal_quorum_state st :
  terminal st = true -> quorum_state st = true.
Proof. by destruct st. Qed.

(** Every handler either leaves the signatures and the state alone, or
    ends in a world where a quorum, if there is one, is recorded. *)
Lemma housekeeping_quorum (w : World) :
  wp housekeeping (fun _ w' =>
    quorum_recorded w'
    \/ signatures (rstate w') = signatures (rstate w)
       /\ currentState (rstate w') = currentState (rstate w)) w.
Proof.
  apply (wp_mono _ _ _ _ (housekeeping_frame w)).
  intros r w' (_ & Hs & _ & [Hst|Ht]); [by right|].
  left. intros _. by apply terminal_quorum_state.
Qed.

(** Compare the quorum tests met on a path: they read the same map. *)
Ltac quorum_tests :=
  unfold hasQuorum_of in *;
  cbn [signatures set_currentState set_firstSeen set_lastObservation
       set_lastTransmission set_observation set_signature
       set_localSignature quorum_state] in *;
  congruence.

Ltac quorum_done :=
  first [ right; split; reflexivity | left; quorum_tests ].

Lemma observed_quorum o (w : World) :
  wp (observed o) (fun _ w' =>
    quorum_recorded w'
    \/ signatures (rstate w') = signatures (rstate w)
       /\ currentState (rstate w') = currentState (rstate w)) w.
Proof.
  open_world w. destruct st; wp_run; quorum_done.
Qed.

Lemma handle_quorum e (w : World) :
  let w' := snd (handle e w) in
  quorum_recorded w'
  \/ signatures (rstate w') = signatures (rstate w)
     /\ currentState (rstate w') = currentState (rstate w).
Proof.
  destruct e as [err|o|m|]; cbn [Reactor.handle].
  - by right.
  - apply observed_quorum.
  - apply observationReceived_quorum.
  - pose proof (housekeeping_quorum w) as H. unfold wp in H.
    unfold bind. by destruct (housekeeping w) as [[r|] w'].
Qed.

Lemma handle_quorum_recorded e (w : World) :
  quorum_recorded w -> quorum_recorded (snd (handle e w)).
Proof.
  intros Hw. destruct (handle_quorum e w) as [H|[Hs Hst]]; [done|].
  rewrite Hst, (hasQuorum_of_signatures _ _ Hs). done.
Qed.

Lemma reachable_invariant (P : World -> Prop) (w0 : World) :
  (forall e w, P w -> P (snd (handle e w))) ->
  P w0 -> forall w, reachable w0 w -> P w.
Proof. intros Hh H0 w Hr. induction Hr; auto. Qed.

Lemma quorum_recorded_new (zeroK : K) : quorum_recorded (NewWorld zeroK).
Proof.
  unfold hasQuorum_of, CalculateQuorum. cbn [NewWorld rstate signatures
    NewReactor_state]. rewrite map_size_empty, Z.geb_leb, Z.leb_le.
  pose proof (Z.div_pos (Z.of_nat (length (Keys (gs c))) * 2) 3). lia.
Qed.

Lemma quorum_state_spec st :
  quorum_state st = true
  <-> st = StateQuorum \/ st = StateQuorumUnobserved
      \/ st = StateFinalized \/ st = StateTimedOut.
Proof. destruct st; cbn; intuition discriminate. Qed.

(** C5: in every world in which a handler can end, a number of stored
    signatures that reaches the quorum of the guardian set comes with one
    of the states [StateQuorum], [StateQuorumUnobserved], [StateFinalized],
    [StateTimedOut]; the same holds at every point of [Run].  The check
    follows every storage: whenever a handler has changed the signature
    map, from any world whatever, a quorum in the new map is recorded in
    the new state; and a local observation in [StateInitialized] whose own
    signature is a quorum ends in [StateQuorum]. *)
Theorem quorum_is_recorded (zeroK : K) :
  let recorded (w : World) :=
    hasQuorum_of c (rstate w) = true ->
    currentState (rstate w) = StateQuorum
    \/ currentState (rstate w) = StateQuorumUnobserved
    \/ currentState (rstate w) = StateFinalized
    \/ currentState (rstate w) = StateTimedOut in
  (forall w, reachable (NewWorld zeroK) w -> recorded w)
  /\ (forall events, recorded (snd (Run events (NewWorld zeroK))))
  /\ (forall w e,
        signatures (rstate (snd (handle e w))) <> signatures (rstate w) ->
        recorded (snd (handle e w)))
  /\ (forall (w : World) o signer addr sig,
        currentState (rstate w) = StateInitialized ->
        cfgSigner (config c) = Some signer ->
        signer_Address signer (calls w) = inl addr ->
        signer_Sign signer (S (calls w)) (SigningMsg o) = inl sig ->
        hasQuorum_of c (set_signature addr sig (rstate w)) = true ->
        fst (observed o w) = Some tt
        /\ currentState (rstate (snd (observed o w))) = StateQuorum
        /\ signatures (rstate (snd (observed o w)))
           = <[addr := sig]> (signatures (rstate w))).
Proof.
  intros recorded. subst recorded. cbv beta. split_and!.
  - intros w Hr Hq. apply quorum_state_spec. revert Hq.
    apply (reachable_invariant (fun w => quorum_recorded w)
             (NewWorld zeroK)); [|apply quorum_recorded_new|done].
    intros e w1. apply handle_quorum_recorded.
  - intros events Hq. apply quorum_state_spec. revert Hq.
    apply (Run_invariant (fun w => quorum_recorded w));
      [|done|apply quorum_recorded_new].
    intros e w1. apply handle_quorum_recorded.
  - intros w e Hch Hq. apply quorum_state_spec.
    destruct (handle_quorum e w) as [H|[Hs _]]; [by apply H|done].
  - intros w o signer addr sig Hst Hsg Haddr Hsign Hq.
    change (wp (observed o) (fun r w' =>
              r = Some tt /\ currentState (rstate w') = StateQuorum
              /\ signatures (rstate w')
                 = <[addr := sig]> (signatures (rstate w))) w).
    open_world w. subst. wp_run.
    all: first [ done | exfalso; quorum_tests ].
Qed.

(** *** A reactor without a signer *)

(** The effects added on a path: none of them is a send. *)
Ltac no_send_done :=
  rewrite ?Forall_app, ?Forall_singleton; cbn [not_sent]; tauto.

Lemma transmitSignature_no_signer (w : World) :
  cfgSigner (config c) = None ->
  transmitSignature w
  = (Some (Some "can't broadcast signature without signer"), w).
Proof. intros Hsg. unfold Reactor.transmitSignature. by rewrite Hsg. Qed.

Lemma observed_no_signer o (w : World) :
  cfgSigner (config c) = None ->
  wp (observed o) (fun r w' =>
    r = Some tt
    /\ signatures (rstate w') = signatures (rstate w)
    /\ localSignature (rstate w') = localSignature (rstate w)
    /\ (Forall not_sent (trace w) -> Forall not_sent (trace w'))) w.
Proof.
  intros Hsg. open_world w. destruct st; wp_run.
  all: split_and!; try done; no_send_done.
Qed.

Lemma housekeeping_no_signer (w : World) :
  cfgSigner (config c) = None ->
  wp housekeeping (fun r w' =>
    localSignature (rstate w') = localSignature (rstate w)
    /\ (Forall not_sent (trace w) -> Forall not_sent (trace w'))) w.
Proof.
  intros Hsg. open_world w. destruct st; wp_run.
  all: split; [done|no_send_done].
Qed.

Lemma observationReceived_no_send m (w : World) :
  wp (observationReceived m) (fun r w' =>
    localSignature (rstate w') = localSignature (rstate w)
    /\ (Forall not_sent (trace w) -> Forall not_sent (trace w'))) w.
Proof.
  open_world w. destruct st; wp_run.
  all: split; [done|no_send_done].
Qed.

Lemma handle_no_signer e (w : World) :
  cfgSigner (config c) = None ->
  localSignature (rstate (snd (handle e w))) = localSignature (rstate w)
  /\ (Forall not_sent (trace w) -> Forall not_sent (trace (snd (handle e w)))).
Proof.
  intros Hsg. destruct e as [err|o|m|]; cbn [Reactor.handle].
  - done.
  - pose proof (observed_no_signer o w Hsg) as H. unfold wp in H. tauto.
  - apply observationReceived_no_send.
  - pose proof (housekeeping_no_signer w Hsg) as H. unfold wp in H.
    unfold bind. by destruct (housekeeping w) as [[r|] w'].
Qed.

Lemma hooks_of_app t1 t2 : hooks_of (t1 ++ t2) = hooks_of t1 ++ hooks_of t2.
Proof.
  induction t1 as [|e t1 IH]; [done|]. destruct e; cbn; by rewrite ?IH.
Qed.

(** Without a signer an accepted local observation is stored and moves the
    state as with one: to [StateObserved], and on to [StateQuorum] when
    the stored signatures are a quorum; each move dispatches the hook. *)
Lemma observed_no_signer_fires o (w : World) :
  cfgSigner (config c) = None ->
  wp (observed o) (fun _ w' =>
    let st := currentState (rstate w) in
    let fired l :=
      stateTransitionHook c = true ->
      hooks_of (trace w') = hooks_of (trace w) ++ l in
    (st = StateInitialized \/ st = StateUnobserved ->
     if hasQuorum_of c (rstate w)
     then currentState (rstate w') = StateQuorum
          /\ fired [(st, StateObserved); (StateObserved, StateQuorum)]
     else currentState (rstate w') = StateObserved
          /\ fired [(st, StateObserved)])
    /\ (st = StateQuorumUnobserved ->
        currentState (rstate w') = StateQuorum /\ fired [(st, StateQuorum)])
    /\ (rejects_local st = false ->
        observation (rstate w') = o
        /\ currentState (rstate w') <> st)) w.
Proof.
  intros Hsg. open_world w. destruct st; wp_run; cbv zeta.
  all: unfold hasQuorum_of in *.
  all: cbn [rstate trace currentState observation signatures
            set_currentState set_firstSeen set_lastObservation
            set_observation] in *.
  all: repeat match goal with
              | H : ?b = _ |- context [if ?b then _ else _] => rewrite H
              end.
  all: rewrite ?hooks_of_app; cbn [hooks_of]; rewrite ?app_nil_r.
  all: rewrite <- ?app_assoc; cbn [app].
  all: split_and!.
  all: try (intros [H|H]; discriminate H).
  all: try (intros H;
            first [discriminate H | vm_compute in H; discriminate H]).
  all: intros _; done.
Qed.

(** C8: a reactor without a signer never stores a local signature and
    never calls the gossip sender, in any run of the driver loop; its
    local-observation handler leaves the signature map as it is;
    [transmitSignature] returns its error before it reaches the sender,
    also when housekeeping calls it to retransmit; and the local
    observation still moves a fresh reactor to [StateObserved].  In every
    state that accepts a local observation the handler stores it and fires
    the transition of that state: from [StateInitialized] and
    [StateUnobserved] to [StateObserved], and on to [StateQuorum] when the
    stored signatures are a quorum, from [StateQuorumUnobserved] to
    [StateQuorum]; the hook is dispatched for each. *)
Theorem observer_never_signs_nor_sends (zeroK : K) :
  cfgSigner (config c) = None ->
  (forall events,
     localSignature (rstate (snd (Run events (NewWorld zeroK)))) = []
     /\ Forall not_sent (trace (snd (Run events (NewWorld zeroK)))))
  /\ (forall (w : World) o,
        fst (observed o w) = Some tt
        /\ signatures (rstate (snd (observed o w))) = signatures (rstate w)
        /\ localSignature (rstate (snd (observed o w)))
           = localSignature (rstate w))
  /\ (forall w : World,
        transmitSignature w
        = (Some (Some "can't broadcast signature without signer"), w))
  /\ (forall (w : World) e,
        Forall not_sent (trace w) ->
        Forall not_sent (trace (snd (handle e w))))
  /\ (forall o,
        currentState (rstate (snd (observed o (NewWorld zeroK))))
        = StateObserved)
  /\ (forall (w : World) o,
        let st := currentState (rstate w) in
        let w' := snd (observed o w) in
        let fired l :=
          stateTransitionHook c = true ->
          hooks_of (trace w') = hooks_of (trace w) ++ l in
        (st = StateInitialized \/ st = StateUnobserved ->
         if hasQuorum_of c (rstate w)
         then currentState (rstate w') = StateQuorum
              /\ fired [(st, StateObserved); (StateObserved, StateQuorum)]
         else currentState (rstate w') = StateObserved
              /\ fired [(st, StateObserved)])
        /\ (st = StateQuorumUnobserved ->
            currentState (rstate w') = StateQuorum
            /\ fired [(st, StateQuorum)])
        /\ (rejects_local st = false ->
            observation (rstate w') = o
            /\ currentState (rstate w') <> st)).
Proof.
  intros Hsg. split_and!.
  - intros events.
    apply (Run_invariant (fun w => localSignature (rstate w) = []
                                   /\ Forall not_sent (trace w))).
    + intros e w [Hl Ht]. destruct (handle_no_signer e w Hsg) as [-> Hns].
      auto.
    + intros ef w Hef [Hl Ht]. split; [done|]. cbn [emit snd trace].
      apply Forall_app. split; [done|]. apply Forall_singleton.
      destruct ef; try done. by destruct (Hef m).
    + split; [done|]. cbn. constructor.
  - intros w o. pose proof (observed_no_signer o w Hsg) as H. unfold wp in H.
    tauto.
  - intros w. by apply transmitSignature_no_signer.
  - intros w e. by apply handle_no_signer.
  - intros o.
    change (wp (observed o)
              (fun _ w' => currentState (rstate w') = StateObserved)
              (NewWorld zeroK)).
    pose proof (quorum_recorded_new zeroK) as Hn.
    unfold NewWorld, NewReactor_state in *. wp_run; try done.
    all: exfalso; unfold hasQuorum_of in *.
    all: cbn [rstate signatures set_currentState set_firstSeen
              set_lastObservation set_observation currentState
              quorum_state] in *.
    all: match goal with
         | H : (_ >=? _) = true |- _ => by apply Hn in H
         end.
  - intros w o. pose proof (observed_no_signer_fires o w Hsg) as H.
    unfold wp in H. cbv beta zeta in H. cbv zeta. exact H.
Qed.

(** *** The signature list of the VAA *)

Section Signatures.

Variable stored : gmap Address bytes.

Lemma VAASignatures_loop_spec keys : forall i sigs,
  (forall a sig, a ∈ keys -> stored !! a = Some sig ->
                 (65 <= length sig)%nat) ->
  VAASignatures_loop keys i stored sigs
  = Some (sigs ++ expected_entries keys i stored).
Proof.
  induction keys as [|a keys IH]; intros i sigs Hlen;
    cbn [VAASignatures_loop expected_entries].
  - by rewrite app_nil_r.
  - assert (Hrest : forall a' sig, a' ∈ keys -> stored !! a' = Some sig ->
                                   (65 <= length sig)%nat).
    { intros a' sig Hin. apply Hlen. by right. }
    destruct (stored !! a) as [sig|] eqn:Hsig; [|by apply IH].
    assert (length (take 65 sig) = 65%nat) as Htake.
    { rewrite length_take. pose proof (Hlen a sig ltac:(left) Hsig). lia. }
    rewrite decide_False by (by intros ?).
    rewrite (IH _ _ Hrest), <- app_assoc. done.
Qed.

Lemma expected_entries_elem keys : forall i e,
  0 <= i -> i + Z.of_nat (length keys) <= 256 ->
  e ∈ expected_entries keys i stored
  <-> exists (p : nat) a sig,
        keys !! p = Some a /\ stored !! a = Some sig
        /\ e = {| vsIndex := i + Z.of_nat p; vsSignature := take 65 sig |}.
Proof.
  induction keys as [|a keys IH]; intros i e Hi Hn;
    cbn [expected_entries length] in *.
  - split; [by intros ?%elem_of_nil|]. by intros (p & ? & ? & ? & _).
  - assert (Htail : e ∈ expected_entries keys (i + 1) stored
              <-> exists (p : nat) a' sig,
                    (a :: keys) !! S p = Some a' /\ stored !! a' = Some sig
                    /\ e = {| vsIndex := i + Z.of_nat (S p);
                              vsSignature := take 65 sig |}).
    { rewrite (IH (i + 1) e) by lia.
      split; intros (p & a' & sig & Hp & Hs & ->); exists p, a', sig;
        (split_and!; [done|done|f_equal; lia]). }
    assert (Hhead : forall sig, stored !! a = Some sig ->
              e = {| vsIndex := uint8 i; vsSignature := take 65 sig |}
              <-> exists a' sig',
                    (a :: keys) !! O = Some a' /\ stored !! a' = Some sig'
                    /\ e = {| vsIndex := i + Z.of_nat O;
                              vsSignature := take 65 sig' |}).
    { intros sig Hsig. unfold uint8. rewrite Z.mod_small by lia.
      rewrite Z.add_0_r. split.
      - intros ->. by exists a, sig.
      - intros (a' & sig' & [= <-] & Hs & ->). congruence. }
    destruct (stored !! a) as [sig|] eqn:Hsig.
    + rewrite elem_of_cons, Htail, (Hhead sig eq_refl). split.
      * intros [(a' & sig' & H)|(p & a' & sig' & H)];
          [by exists O, a', sig'|by exists (S p), a', sig'].
      * intros ([|p] & a' & sig' & H);
          [left; by exists a', sig'|right; by exists p, a', sig'].
    + rewrite Htail. split.
      * intros (p & a' & sig' & H). by exists (S p), a', sig'.
      * intros ([|p] & a' & sig' & Hp & Hs & He);
          [|by exists p, a', sig'].
        cbn in Hp. congruence.
Qed.

Lemma expected_entries_bounds keys : forall i,
  0 <= i -> i + Z.of_nat (length keys) <= 256 ->
  Forall (fun e => i <= vsIndex e < i + Z.of_nat (length keys))
    (expected_entries keys i stored).
Proof.
  intros i Hi Hn. apply Forall_forall. intros e He.
  apply expected_entries_elem in He as (p & a & sig & Hp & _ & ->);
    [|done|done].
  apply lookup_lt_Some in Hp. cbn. lia.
Qed.

Lemma expected_entries_sorted keys : forall i,
  0 <= i -> i + Z.of_nat (length keys) <= 256 ->
  StronglySorted Z.lt (vsIndex <$> expected_entries keys i stored).
Proof.
  induction keys as [|a keys IH]; intros i Hi Hn;
    cbn [expected_entries length] in *; [constructor|].
  specialize (IH (i + 1) ltac:(lia) ltac:(lia)).
  destruct (stored !! a) as [sig|]; [|done].
  cbn [fmap list_fmap vsIndex]. constructor; [done|].
  apply Forall_fmap, Forall_forall. intros e He.
  pose proof (expected_entries_bounds keys (i + 1) ltac:(lia) ltac:(lia))
    as Hb.
  rewrite Forall_forall in Hb. specialize (Hb e He).
  unfold uint8. rewrite Z.mod_small by lia. cbn. lia.
Qed.

Lemma expected_entries_length keys : forall i,
  length (expected_entries keys i stored)
  = length (filter (fun a => is_Some (stored !! a)) keys).
Proof.
  induction keys as [|a keys IH]; intros i; [done|].
  cbn [expected_entries].
  destruct (stored !! a) as [sig|] eqn:Hsig.
  - rewrite filter_cons_True by (by rewrite Hsig).
    cbn. by rewrite IH.
  - rewrite filter_cons_False by (rewrite Hsig; by intros [? ?]).
    by rewrite IH.
Qed.

End Signatures.

(** C7, as the code has it: for a guardian set of at most 256 addresses
    and stored signatures of at least 65 bytes, [VAASignatures] returns,
    without a panic, one entry for each position of the guardian set whose
    address has a stored signature, in the order of the guardian set: the
    indices are strictly ascending and lie in [[0, |gs|)], every entry is
    the position of a guardian with the first 65 bytes of its stored
    signature, and an address of the map that is not in the guardian set
    has no entry. *)
Theorem VAASignatures_in_guardian_order (s : reactorState) :
  (length (Keys (gs c)) <= 256)%nat ->
  (forall a sig, a ∈ Keys (gs c) -> signatures s !! a = Some sig ->
                 (65 <= length sig)%nat) ->
  exists out,
    VAASignatures c s = Some out
    /\ StronglySorted Z.lt (vsIndex <$> out)
    /\ Forall (fun e => 0 <= vsIndex e < Z.of_nat (length (Keys (gs c)))) out
    /\ (forall e,
          e ∈ out
          <-> exists (p : nat) a sig,
                Keys (gs c) !! p = Some a /\ signatures s !! a = Some sig
                /\ e = {| vsIndex := Z.of_nat p;
                          vsSignature := take 65 sig |})
    /\ length out
       = length (filter (fun a => is_Some (signatures s !! a))
                   (Keys (gs c))).
Proof.
  intros Hn Hlen. exists (expected_entries (Keys (gs c)) 0 (signatures s)).
  split_and!.
  - unfold VAASignatures. by rewrite VAASignatures_loop_spec.
  - apply expected_entries_sorted; lia.
  - apply (expected_entries_bounds (signatures s) (Keys (gs c)) 0); lia.
  - intros e. rewrite expected_entries_elem by lia. done.
  - apply expected_entries_length.
Qed.

(** *** A transition as one step *)

Lemma wp_stateTransition to (Q : option unit -> World -> Prop) (w : World) :
  Q (Some tt)
    {| rstate := set_currentState to (rstate w); calls := calls w;
       trace := (trace w ++ [Log "debug" "state transition"])
                ++ (if stateTransitionHook c
                    then [Hook (currentState (rstate w)) to] else []) |} ->
  wp (stateTransition c to) Q w.
Proof.
  unfold wp, stateTransition, bind, gets, emit, modify, when. cbn.
  destruct (stateTransitionHook c); cbn; [done|]. by rewrite app_nil_r.
Qed.

(** Symbolic execution that does not split on the hook. *)
Ltac wp_walk :=
  repeat lazymatch goal with
         | |- wp (stateTransition _ _) _ _ =>
           apply wp_stateTransition; wp_simpl
         | |- _ => wp_step
         end.

(** * Further properties of the reactor *)

(** *** The driver loop, event by event *)

Lemma housekeeping_result (w : World) :
  fst (housekeeping w) = Some (terminal (currentState (rstate w)), None).
Proof.
  change (wp housekeeping (fun r _ =>
            r = Some (terminal (currentState (rstate w)), None)) w).
  open_world w. destruct st; wp_run; reflexivity.
Qed.

Lemma Run_loop_tick rest (w : World) :
  Run_loop (Tick :: rest) w
  = if terminal (currentState (rstate w)) then
      (Some (Returned None),
       {| rstate := rstate w; calls := calls w;
          trace := trace w
            ++ [Log "debug" "starting housekeeping";
                Log "debug" "housekeeping completed";
                Log "debug" "reactor concluded; shutting down processing loop";
                Signal "done"] |})
    else Run_loop rest (snd (housekeeping w)).
Proof.
  cbn [Reactor.Run_loop]. unfold bind at 1.
  destruct (terminal (currentState (rstate w))) eqn:Ht.
  - rewrite (housekeeping_terminal w Ht). cbn [fst snd]. unfold bind at 1.
    rewrite bool_decide_eq_false_2 by (intros H; by apply H).
    cbn. by rewrite <- !app_assoc.
  - pose proof (housekeeping_result w) as Hr. rewrite Ht in Hr.
    destruct (housekeeping w) as [r w']. cbn [fst snd] in *. subst r.
    cbn [fst snd]. unfold bind at 1.
    rewrite bool_decide_eq_false_2 by (intros H; by apply H). done.
Qed.

(** X1: [Run] returns [nil] only from a terminal state: when the loop ends
    by itself the reactor is in [StateFinalized] or [StateTimedOut]; and
    housekeeping reports [terminate] exactly when the state was terminal
    already when the tick arrived, always with a [nil] error, so the tick
    that times out or finalizes does not end the loop, the next one does. *)
Theorem Run_returns_nil_only_when_terminal :
  (forall w : World,
     fst (housekeeping w) = Some (terminal (currentState (rstate w)), None))
  /\ (forall events (w : World),
       fst (Run events w) = Some (Returned None) ->
       terminal (currentState (rstate (snd (Run events w)))) = true)
  /\ (forall (w : World) rest,
       terminal (currentState (rstate w)) = false ->
       Run_loop (Tick :: rest) w = Run_loop rest (snd (housekeeping w))).
Proof.
  split_and!.
  - apply housekeeping_result.
  - assert (Hloop : forall events (w : World),
              fst (Run_loop events w) = Some (Returned None) ->
              terminal (currentState (rstate (snd (Run_loop events w))))
              = true).
    { induction events as [|e rest IH]; intros w; [done|].
      destruct e as [err|o|m|].
      - done.
      - cbn [Reactor.Run_loop]. unfold bind.
        destruct (observed o w) as [[[]|] w']; [apply IH|done].
      - cbn [Reactor.Run_loop]. unfold bind.
        destruct (observationReceived m w) as [[[]|] w']; [apply IH|done].
      - rewrite Run_loop_tick.
        destruct (terminal (currentState (rstate w))) eqn:Ht; [done|].
        apply IH. }
    intros events w. unfold Reactor.Run, bind, gets. cbn [emit fst snd rstate].
    destruct (State_eqb (currentState (rstate w)) StateFinalized) eqn:Hf.
    + intros _. cbn. by destruct (currentState (rstate w)).
    + apply Hloop.
  - intros w rest Ht. by rewrite Run_loop_tick, Ht.
Qed.

(** X2: a reactor that is started in [StateFinalized] returns at once: it
    signals health and completion and handles none of the events it is
    given.  A reactor in [StateTimedOut] is not stopped at the start: it
    keeps selecting until a tick arrives, and that tick ends it. *)
Theorem Run_from_a_terminal_state (w : World) events :
  (currentState (rstate w) = StateFinalized ->
   Run events w
   = (Some (Returned None),
      {| rstate := rstate w; calls := calls w;
         trace := trace w ++ [Signal "healthy"; Signal "done"] |}))
  /\ (currentState (rstate w) = StateTimedOut ->
      forallb (fun e => negb (is_tick_or_done e)) events = true ->
      fst (Run events w) = Some Selecting
      /\ fst (Run (events ++ [Tick]) w) = Some (Returned None)).
Proof.
  split.
  - intros Hs. unfold Reactor.Run, bind, gets. cbn [emit fst snd rstate].
    rewrite Hs. cbn. by rewrite <- app_assoc.
  - intros Hs Hev. unfold Reactor.Run, bind, gets. cbn [emit fst snd rstate].
    rewrite Hs.
    change (State_eqb StateTimedOut StateFinalized) with false. cbv iota.
    set (w1 := {| rstate := rstate w; calls := calls w; trace := _ |}).
    assert (Ht : terminal (currentState (rstate w1)) = true)
      by (cbn; by rewrite Hs).
    clearbody w1. revert w1 Ht.
    induction events as [|e rest IH]; intros w1 Ht.
    + split; [done|]. cbn [app]. by rewrite Run_loop_tick, Ht.
    + cbn [forallb] in Hev. apply andb_prop in Hev as [He Hrest].
      destruct e as [err|o|m|]; try discriminate He;
        cbn [app Reactor.Run_loop]; unfold bind.
      * rewrite (observed_terminal o w1 Ht). by apply IH.
      * rewrite (observationReceived_terminal m w1 Ht). by apply IH.
Qed.

(** X3: cancellation ends the loop with the error of the context, and no
    event that is selected after it is handled. *)
Theorem Run_stops_at_cancellation pre err rest (w : World) :
  Run (pre ++ CtxDone err :: rest) w = Run (pre ++ [CtxDone err]) w
  /\ (currentState (rstate w) <> StateFinalized ->
      Run (CtxDone err :: rest) w
      = (Some (Returned (Some err)),
         {| rstate := rstate w; calls := calls w;
            trace := trace w ++ [Signal "healthy"] |})).
Proof.
  split.
  - unfold Reactor.Run, bind. cbn [emit fst snd].
    destruct (gets currentState _) as [[st|] w1]; [|done].
    destruct (State_eqb st StateFinalized); [done|].
    revert w1. induction pre as [|e pre IH]; intros w1; [done|].
    destruct e as [err'|o|m|]; cbn [app Reactor.Run_loop]; unfold bind.
    + done.
    + by destruct (observed o w1) as [[[]|] w2].
    + by destruct (observationReceived m w1) as [[[]|] w2].
    + destruct (housekeeping w1) as [[[t e]|] w2]; [|done]. cbn [fst snd].
      destruct (when _ _ w2) as [[[]|] w3]; [|done].
      by destruct t.
  - intros Hs. unfold Reactor.Run, bind, gets. cbn [emit fst snd rstate].
    destruct (currentState (rstate w)); done.
Qed.

(** *** The transitions of the state machine *)

Lemma observed_edges o (w : World) :
  wp (observed o) (fun r w' =>
    let st := currentState (rstate w) in
    let st' := currentState (rstate w') in
    (st' = st \/ local_edge st st' = true)
    /\ (r = Some tt -> rejects_local st = false -> local_edge st st' = true)
    /\ (rejects_local st = true -> rstate w' = rstate w)
    /\ timeQuorum (rstate w') = timeQuorum (rstate w)
    /\ (st <> StateInitialized -> firstSeen (rstate w') = firstSeen (rstate w))
    /\ (st = StateInitialized -> r = Some tt ->
        exists n, firstSeen (rstate w') = clock n)
    /\ (r = None -> rstate w' = set_observation o (rstate w))) w.
Proof.
  open_world w. destruct st; wp_walk; cbn.
  all: split_and!; first [done | by left | by right | by eexists].
Qed.

Lemma observationReceived_edges m (w : World) :
  wp (observationReceived m) (fun r w' =>
    let st := currentState (rstate w) in
    let st' := currentState (rstate w') in
    (st' = st \/ foreign_edge st st' = true)
    /\ (st' <> st -> signatures (rstate w') <> signatures (rstate w))
    /\ timeQuorum (rstate w') = timeQuorum (rstate w)
    /\ observation (rstate w') = observation (rstate w)
    /\ localSignature (rstate w') = localSignature (rstate w)
    /\ lastTransmission (rstate w') = lastTransmission (rstate w)
    /\ (st <> StateInitialized -> firstSeen (rstate w') = firstSeen (rstate w))
    /\ (st = StateInitialized -> st' <> st ->
        exists n, firstSeen (rstate w') = clock n)) w.
Proof.
  open_world w. destruct st; wp_walk; cbn.
  all: split_and!; first [done | by left | by right | by eexists | idtac].
  all: intros _ Heq;
    match goal with
    | H : ?sigs !! ?a = None |- _ =>
      apply (f_equal (fun m => m !! a)) in Heq;
      rewrite lookup_insert_eq, H in Heq; discriminate Heq
    end.
Qed.

Lemma housekeeping_edges (w : World) :
  wp housekeeping (fun r w' =>
    let st := currentState (rstate w) in
    let st' := currentState (rstate w') in
    (st' = st \/ tick_edge st st' = true)
    /\ signatures (rstate w') = signatures (rstate w)
    /\ timeQuorum (rstate w') = timeQuorum (rstate w)
    /\ observation (rstate w') = observation (rstate w)
    /\ localSignature (rstate w') = localSignature (rstate w)
    /\ firstSeen (rstate w') = firstSeen (rstate w)
    /\ lastObservation (rstate w') = lastObservation (rstate w)) w.
Proof.
  open_world w. destruct st; wp_walk; cbn.
  all: split_and!; first [done | by left | by right].
Qed.

Lemma edges_rank a b :
  local_edge a b = true \/ foreign_edge a b = true \/ tick_edge a b = true ->
  (rank a < rank b)%nat.
Proof. destruct a, b; cbn; intros [H|[H|H]]; first [discriminate H | lia]. Qed.

(** X4: the state machine only moves forward.  A local observation, a
    foreign observation and a tick each change [currentState] along their
    own edges only, every change raises the rank of the state, so no state
    is entered twice and [StateInitialized] is never entered; in
    particular [StateFinalized] is entered only by a tick in
    [StateQuorum], [StateTimedOut] only by a tick, and an observation never
    makes the reactor terminal.  A local observation that is accepted and
    does not panic always leaves the states that accept one. *)
Theorem state_machine_moves_forward (w : World) :
  (forall o,
     let st' := currentState (rstate (snd (observed o w))) in
     (st' = currentState (rstate w)
      \/ local_edge (currentState (rstate w)) st' = true)
     /\ (fst (observed o w) = Some tt ->
         rejects_local (currentState (rstate w)) = false ->
         local_edge (currentState (rstate w)) st' = true
         /\ rejects_local st' = true))
  /\ (forall m,
       let st' := currentState (rstate (snd (observationReceived m w))) in
       st' = currentState (rstate w)
       \/ foreign_edge (currentState (rstate w)) st' = true)
  /\ (let st' := currentState (rstate (snd (housekeeping w))) in
      st' = currentState (rstate w)
      \/ tick_edge (currentState (rstate w)) st' = true)
  /\ (forall e,
       let st' := currentState (rstate (snd (handle e w))) in
       (rank (currentState (rstate w)) <= rank st')%nat
       /\ (st' <> currentState (rstate w) ->
           (rank (currentState (rstate w)) < rank st')%nat)
       /\ (st' = StateFinalized ->
           currentState (rstate w) = StateFinalized
           \/ e = Tick /\ currentState (rstate w) = StateQuorum)
       /\ (terminal st' = true ->
           terminal (currentState (rstate w)) = true \/ e = Tick)).
Proof.
  assert (Hl : forall o,
            let st' := currentState (rstate (snd (observed o w))) in
            (st' = currentState (rstate w)
             \/ local_edge (currentState (rstate w)) st' = true)
            /\ (fst (observed o w) = Some tt ->
                rejects_local (currentState (rstate w)) = false ->
                local_edge (currentState (rstate w)) st' = true
                /\ rejects_local st' = true)).
  { intros o st'. pose proof (observed_edges o w) as H. unfold wp in H.
    cbv beta zeta in H. destruct H as (H1 & H2 & _). split; [done|].
    intros Hok Hacc. specialize (H2 Hok Hacc). split; [done|].
    subst st'. revert H2.
    destruct (currentState (rstate w)),
      (currentState (rstate (snd (observed o w)))); by cbn. }
  assert (Hf : forall m,
            let st' := currentState (rstate (snd (observationReceived m w))) in
            st' = currentState (rstate w)
            \/ foreign_edge (currentState (rstate w)) st' = true).
  { intros m. pose proof (observationReceived_edges m w) as H.
    unfold wp in H. cbv beta zeta in H. cbv zeta. tauto. }
  assert (Ht : let st' := currentState (rstate (snd (housekeeping w))) in
               st' = currentState (rstate w)
               \/ tick_edge (currentState (rstate w)) st' = true).
  { pose proof (housekeeping_edges w) as H. unfold wp in H.
    cbv beta zeta in H. cbv zeta. tauto. }
  split_and!; try done.
  intros e st'.
  assert (He : st' = currentState (rstate w)
               \/ (exists o, e = LocalObservation o)
                  /\ local_edge (currentState (rstate w)) st' = true
               \/ (exists m, e = ForeignObservation m)
                  /\ foreign_edge (currentState (rstate w)) st' = true
               \/ e = Tick /\ tick_edge (currentState (rstate w)) st' = true).
  { subst st'. destruct e as [err|o|m|]; cbn [Reactor.handle].
    - by left.
    - destruct (Hl o) as [[H|H] _]; [by left|]. right. left. eauto.
    - destruct (Hf m) as [H|H]; [by left|]. right. right. left. eauto.
    - assert (Hsnd : snd (bind housekeeping (fun _ => ret tt) w)
                     = snd (housekeeping w)).
      { unfold bind. by destruct (housekeeping w) as [[r|] w']. }
      rewrite Hsnd. destruct Ht as [H|H]; [by left|]. by do 3 right. }
  clearbody st'. remember (currentState (rstate w)) as st eqn:Hst.
  clear Hst Hl Hf Ht.
  destruct He as [->|[[[o ->] H]|[[[m ->] H]|[-> H]]]].
  - split_and!; try done; try lia. all: by left.
  - destruct st, st'; try discriminate H; cbn;
      split_and!; try done; try lia.
  - destruct st, st'; try discriminate H; cbn;
      split_and!; try done; try lia.
  - destruct st, st'; try discriminate H; cbn;
      split_and!; try done; try lia; intros _; right; done.
Qed.

(** *** The state-transition hook *)

(** The dispatches added on a path, and the chain they form. *)
Ltac hooks_done :=
  repeat match goal with
         | H : stateTransitionHook c = _ |- _ => rewrite H
         end;
  rewrite ?hooks_of_app; cbn [hooks_of]; rewrite <- ?app_assoc;
  cbn [app]; rewrite ?app_nil_r;
  first [ exists []; rewrite ?app_nil_r; cbn; split_and!; (done || lia)
        | eexists [_]; cbn; split_and!; (done || lia)
        | eexists [_; _]; cbn; split_and!; (done || lia) ].

Local Abbreviation hook_chain w w' n :=
  (exists l, hooks_of (trace w') = hooks_of (trace w) ++ l
             /\ chain (currentState (rstate w)) l (currentState (rstate w'))
             /\ (length l <= n)%nat
             /\ (currentState (rstate w') = currentState (rstate w) ->
                 l = [])).

Lemma observed_hooks o (w : World) :
  stateTransitionHook c = true -> wp (observed o) (fun _ w' => hook_chain w w' 2%nat) w.
Proof. intros Hh. open_world w. destruct st; wp_walk; hooks_done. Qed.

Lemma observationReceived_hooks m (w : World) :
  stateTransitionHook c = true ->
  wp (observationReceived m) (fun _ w' => hook_chain w w' 2%nat) w.
Proof. intros Hh. open_world w. destruct st; wp_walk; hooks_done. Qed.

Lemma housekeeping_hooks (w : World) :
  stateTransitionHook c = true ->
  wp housekeeping (fun _ w' => hook_chain w w' 1%nat) w.
Proof. intros Hh. open_world w. destruct st; wp_walk; hooks_done. Qed.

Lemma handle_no_hook e (w : World) :
  stateTransitionHook c = false ->
  hooks_of (trace (snd (handle e w))) = hooks_of (trace w).
Proof.
  intros Hh. destruct e as [err|o|m|]; cbn [Reactor.handle].
  - done.
  - change (wp (observed o)
              (fun _ w' => hooks_of (trace w') = hooks_of (trace w)) w).
    open_world w. destruct st; wp_walk.
    all: rewrite ?Hh, ?hooks_of_app; cbn [hooks_of]; by rewrite ?app_nil_r.
  - change (wp (observationReceived m)
              (fun _ w' => hooks_of (trace w') = hooks_of (trace w)) w).
    open_world w. destruct st; wp_walk.
    all: rewrite ?Hh, ?hooks_of_app; cbn [hooks_of]; by rewrite ?app_nil_r.
  - assert (Hsnd : snd (bind housekeeping (fun _ => ret tt) w)
                   = snd (housekeeping w)).
    { unfold bind. by destruct (housekeeping w) as [[r|] w']. }
    rewrite Hsnd.
    change (wp housekeeping
              (fun _ w' => hooks_of (trace w') = hooks_of (trace w)) w).
    open_world w. destruct st; wp_walk.
    all: rewrite ?Hh, ?hooks_of_app; cbn [hooks_of]; by rewrite ?app_nil_r.
Qed.

(** X5: the hook is dispatched once for every change of [currentState],
    with the state before and the state after, in the order of the changes:
    the dispatches of one event lead from the state before the event to the
    state after it.  An event dispatches at most two (a local observation
    that is at once a quorum goes through [StateObserved]), a tick at most
    one, an event that changes no state none; without a hook nothing is
    dispatched. *)
Theorem hook_follows_the_state (w : World) e :
  (stateTransitionHook c = true ->
   exists l,
     hooks_of (trace (snd (handle e w))) = hooks_of (trace w) ++ l
     /\ chain (currentState (rstate w)) l
          (currentState (rstate (snd (handle e w))))
     /\ (length l <= 2)%nat
     /\ (e = Tick -> (length l <= 1)%nat)
     /\ (currentState (rstate (snd (handle e w))) = currentState (rstate w)
         -> l = []))
  /\ (stateTransitionHook c = false ->
      hooks_of (trace (snd (handle e w))) = hooks_of (trace w)).
Proof.
  split; [|by apply handle_no_hook].
  intros Hh. destruct e as [err|o|m|]; cbn [Reactor.handle].
  - exists []. rewrite app_nil_r. cbn. split_and!; (done || lia).
  - destruct (observed_hooks o w Hh) as (l & H1 & H2 & H3 & H4).
    exists l. by split_and!.
  - destruct (observationReceived_hooks m w Hh) as (l & H1 & H2 & H3 & H4).
    exists l. by split_and!.
  - assert (Hsnd : snd (bind housekeeping (fun _ => ret tt) w)
                   = snd (housekeeping w)).
    { unfold bind. by destruct (housekeeping w) as [[r|] w']. }
    rewrite Hsnd.
    destruct (housekeeping_hooks w Hh) as (l & H1 & H2 & H3 & H4).
    exists l. split_and!; try done; lia.
Qed.

(** *** What the handlers never write *)

Lemma snd_handle_tick (w : World) :
  snd (handle Tick w) = snd (housekeeping w).
Proof.
  cbn [Reactor.handle]. unfold bind.
  by destruct (housekeeping w) as [[r|] w'].
Qed.

Lemma handle_frame e (w : World) :
  let st := currentState (rstate w) in
  let w' := snd (handle e w) in
  timeQuorum (rstate w') = timeQuorum (rstate w)
  /\ (st <> StateInitialized -> firstSeen (rstate w') = firstSeen (rstate w))
  /\ (rejects_local st = true ->
      rejects_local (currentState (rstate w')) = true
      /\ observation (rstate w') = observation (rstate w)
      /\ localSignature (rstate w') = localSignature (rstate w)).
Proof.
  cbv zeta. destruct e as [err|o|m|].
  - done.
  - cbn [Reactor.handle].
    pose proof (observed_edges o w) as H. unfold wp in H.
    cbv beta zeta in H. destruct H as (_ & _ & Hrej & Htq & Hfs & _).
    split_and!; try done. intros Hr. by rewrite (Hrej Hr).
  - cbn [Reactor.handle].
    pose proof (observationReceived_edges m w) as H. unfold wp in H.
    cbv beta zeta in H.
    destruct H as (Hst & _ & Htq & Hob & Hls & _ & Hfs & _).
    split_and!; try done. intros Hr. split_and!; try done.
    destruct Hst as [->|Hedge]; [done|]. revert Hr Hedge.
    destruct (currentState (rstate w)),
      (currentState (rstate (snd (observationReceived m w)))); by cbn.
  - rewrite snd_handle_tick.
    pose proof (housekeeping_edges w) as H. unfold wp in H.
    cbv beta zeta in H. destruct H as (Hst & _ & Htq & Hob & Hls & Hfs & _).
    split_and!; try done. intros Hr. split_and!; try done.
    destruct Hst as [->|Hedge]; [done|]. revert Hr Hedge.
    destruct (currentState (rstate w)),
      (currentState (rstate (snd (housekeeping w)))); by cbn.
Qed.

(** The outcome of a tick, state by state. *)
Lemma housekeeping_timeouts (w : World) :
  wp housekeeping (fun _ w' =>
    let now := clock (calls w) in
    let s := rstate w in
    match currentState s with
    | StateUnobserved | StateQuorumUnobserved =>
      rstate w' = if time_Sub now (firstSeen s) >? UnobservedTimeout (config c)
                  then set_currentState StateTimedOut s else s
    | StateQuorum =>
      rstate w' = if (time_Sub now (timeQuorum s)
                        >? QuorumGracePeriod (config c))
                     || bool_decide (length (Keys (gs c))
                                     = size (signatures s))
                  then set_currentState StateFinalized s else s
    | StateObserved =>
      currentState (rstate w')
      = (if time_Sub now (lastObservation s) >? QuorumTimeout (config c)
         then StateTimedOut else StateObserved)
      /\ (rstate w'
          = set_currentState (currentState (rstate w')) s
          \/ exists n, rstate w'
                       = set_lastTransmission (clock n)
                           (set_currentState (currentState (rstate w')) s))
    | _ => rstate w' = s
    end) w.
Proof.
  open_world w. destruct st; wp_walk; cbn.
  all: repeat match goal with
              | H : ?b = _ |- context [?b] => rewrite H
              end; cbn [orb].
  all: try case_bool_decide; try done.
  all: first [ by split; [|left] | split; [done|right; by eexists] ].
Qed.

(** X6: no handler assigns [timeQuorum]: it is the zero time in every
    world a fresh reactor can reach.  So the grace period of a reactor in
    [StateQuorum] is measured from the zero time, not from the moment the
    quorum was reached: a tick finalizes as soon as the clock is further
    from the zero time than [QuorumGracePeriod] (or the signature set is
    full). *)
Theorem timeQuorum_is_never_stamped (zeroK : K) :
  (forall e (w : World),
     timeQuorum (rstate (snd (handle e w))) = timeQuorum (rstate w))
  /\ (forall w, reachable (NewWorld zeroK) w -> timeQuorum (rstate w) = 0)
  /\ (forall w,
       reachable (NewWorld zeroK) w ->
       currentState (rstate w) = StateQuorum ->
       (currentState (rstate (snd (housekeeping w))) = StateFinalized
        <-> time_Sub (clock (calls w)) 0 > QuorumGracePeriod (config c)
            \/ length (Keys (gs c)) = size (signatures (rstate w)))).
Proof.
  assert (Hframe : forall e (w : World),
            timeQuorum (rstate (snd (handle e w))) = timeQuorum (rstate w)).
  { intros e w. apply (handle_frame e w). }
  assert (Hzero : forall w, reachable (NewWorld zeroK) w ->
                            timeQuorum (rstate w) = 0).
  { apply reachable_invariant; [|done]. intros e w Hw. by rewrite Hframe. }
  split_and!; try done.
  intros w Hr Hst. pose proof (housekeeping_timeouts w) as H.
  unfold wp in H. cbv beta zeta in H. rewrite Hst, (Hzero w Hr) in H.
  rewrite H. destruct (Z.gtb_spec (time_Sub (clock (calls w)) 0)
                         (QuorumGracePeriod (config c))) as [Hgt|Hle];
    cbn [orb].
  - split; [intros _; left; lia|done].
  - case_bool_decide as Hn; cbn.
    + split; [by right|done].
    + rewrite Hst. split; [done|]. intros [?|?]; [lia|done].
Qed.

(** X7: [firstSeen] is stamped when the reactor leaves
    [StateInitialized], by the clock, and by nothing else: an event handled
    in any other state leaves it as it is. *)
Theorem firstSeen_is_stamped_once e (w : World) :
  let w' := snd (handle e w) in
  (currentState (rstate w) <> StateInitialized ->
   firstSeen (rstate w') = firstSeen (rstate w))
  /\ (currentState (rstate w) = StateInitialized ->
      currentState (rstate w') <> StateInitialized ->
      exists n, firstSeen (rstate w') = clock n)
  /\ (currentState (rstate w) = StateInitialized ->
      currentState (rstate w') = StateInitialized ->
      firstSeen (rstate w') = firstSeen (rstate w)).
Proof.
  cbv zeta. split; [apply (handle_frame e w)|].
  destruct e as [err|o|m|].
  - cbn [Reactor.handle ret snd].
    split; [intros H1 H2; by destruct H2|done].
  - cbn [Reactor.handle].
    change (wp (observed o) (fun _ w' =>
      (currentState (rstate w) = StateInitialized ->
       currentState (rstate w') <> StateInitialized ->
       exists n, firstSeen (rstate w') = clock n)
      /\ (currentState (rstate w) = StateInitialized ->
          currentState (rstate w') = StateInitialized ->
          firstSeen (rstate w') = firstSeen (rstate w))) w).
    open_world w. destruct st; wp_walk; cbn.
    all: split; first [done | intros _ _; by eexists].
  - cbn [Reactor.handle].
    change (wp (observationReceived m) (fun _ w' =>
      (currentState (rstate w) = StateInitialized ->
       currentState (rstate w') <> StateInitialized ->
       exists n, firstSeen (rstate w') = clock n)
      /\ (currentState (rstate w) = StateInitialized ->
          currentState (rstate w') = StateInitialized ->
          firstSeen (rstate w') = firstSeen (rstate w))) w).
    open_world w. destruct st; wp_walk; cbn.
    all: split; first [done | intros _ _; by eexists].
  - rewrite snd_handle_tick.
    pose proof (housekeeping_edges w) as H. unfold wp in H.
    cbv beta zeta in H. destruct H as (Hst & _ & _ & _ & _ & Hfs & _).
    split; [|done]. intros Hi Hn. destruct Hst as [Heq|Hedge]; [congruence|].
    rewrite Hi in Hedge. by destruct (currentState _).
Qed.

Local Abbreviation accepted_locals :=
  (accepted_locals MessageID SigningMsg Ecrecover Keccak256 clock c).

(** An accepted local observation is stored, whether the signer answers
    or not. *)
Lemma observed_stores o (w : World) :
  wp (observed o) (fun _ w' =>
    rejects_local (currentState (rstate w)) = false ->
    observation (rstate w') = o) w.
Proof.
  open_world w. destruct st; wp_walk.
  all: first [ done | intros H; vm_compute in H; discriminate H ].
Qed.

Lemma local_edge_rejects a b :
  local_edge a b = true -> rejects_local b = true.
Proof. by destruct a, b. Qed.

(** The states that reject a local observation are never left, and in them
    the observation and the local signature are fixed. *)
Lemma deliver_rejecting events (w : World) :
  rejects_local (currentState (rstate w)) = true ->
  rejects_local (currentState (rstate (deliver events w))) = true
  /\ observation (rstate (deliver events w)) = observation (rstate w)
  /\ localSignature (rstate (deliver events w)) = localSignature (rstate w).
Proof.
  revert w. induction events as [|e rest IH]; intros w Hr; [done|].
  cbn [Reactor.deliver].
  destruct (handle_frame e w) as (_ & _ & H).
  destruct (H Hr) as (Hr' & Hob & Hls).
  destruct (IH _ Hr') as (H1 & H2 & H3).
  split_and!; congruence.
Qed.

Lemma accepted_locals_rejecting events (w : World) :
  rejects_local (currentState (rstate w)) = true ->
  accepted_locals events w = 0%nat.
Proof.
  revert w. induction events as [|e rest IH]; intros w Hr; [done|].
  cbn [Reactor.accepted_locals].
  destruct (handle_frame e w) as (_ & _ & H). destruct (H Hr) as (Hr' & _).
  rewrite (IH _ Hr'), Hr.
  destruct e as [err|o|m|]; try done. by destruct (fst (observed o w)).
Qed.

Lemma accepted_locals_once events (w : World) :
  (accepted_locals events w <= 1)%nat.
Proof.
  revert w. induction events as [|e rest IH]; intros w; [cbn; lia|].
  cbn [Reactor.accepted_locals].
  specialize (IH (snd (handle e w))).
  destruct e as [err|o|m|]; try lia.
  destruct (fst (observed o w)) as [[]|] eqn:Hf; [|lia].
  destruct (rejects_local (currentState (rstate w))) eqn:Hr; [lia|].
  pose proof (observed_edges o w) as H. unfold wp in H. cbv beta zeta in H.
  destruct H as (_ & H & _). specialize (H Hf Hr).
  apply local_edge_rejects in H.
  cbn [Reactor.handle]. rewrite (accepted_locals_rejecting rest _ H). lia.
Qed.

(** X8: at most one local observation is accepted.  Of the local
    observations of any schedule at most one passes the state guard and
    returns: one that does is stored for good and leaves the states that
    accept one; the states that reject a local observation are closed under
    every event, and in them no event writes [observation] or
    [localSignature], so what a retransmission sends is what was signed
    when the observation was made.  A local observation that panics in the
    signer is not among them: it has overwritten [observation] and left
    the rest of the state as it was, so the reactor, if it is run again,
    still accepts one. *)
Theorem local_observation_is_accepted_once (w : World) :
  (forall events, (accepted_locals events w <= 1)%nat)
  /\ (forall o,
        rejects_local (currentState (rstate w)) = false ->
        (fst (observed o w) = Some tt ->
         rejects_local (currentState (rstate (snd (observed o w)))) = true
         /\ forall events,
              accepted_locals events (snd (observed o w)) = 0%nat
              /\ observation (rstate (deliver events (snd (observed o w))))
                 = o)
        /\ (fst (observed o w) = None ->
            rstate (snd (observed o w)) = set_observation o (rstate w)
            /\ rejects_local (currentState (rstate (snd (observed o w))))
               = false))
  /\ (rejects_local (currentState (rstate w)) = true ->
      (forall o, rstate (snd (observed o w)) = rstate w)
      /\ forall events,
           accepted_locals events w = 0%nat
           /\ rejects_local (currentState (rstate (deliver events w))) = true
           /\ observation (rstate (deliver events w)) = observation (rstate w)
           /\ localSignature (rstate (deliver events w))
              = localSignature (rstate w)).
Proof.
  split; [intros events; apply accepted_locals_once|]. split.
  - intros o Hacc.
    pose proof (observed_edges o w) as H. unfold wp in H.
    cbv beta zeta in H. destruct H as (_ & Hedge & _ & _ & _ & _ & Hpanic).
    pose proof (observed_stores o w) as Hst. unfold wp in Hst.
    cbv beta in Hst. specialize (Hst Hacc). split.
    + intros Hok. specialize (Hedge Hok Hacc).
      apply local_edge_rejects in Hedge. split; [done|].
      intros events. split; [by apply accepted_locals_rejecting|].
      destruct (deliver_rejecting events _ Hedge) as (_ & -> & _). done.
    + intros Hp. specialize (Hpanic Hp). split; [done|]. by rewrite Hpanic.
  - intros Hr. split.
    + intros o. pose proof (observed_edges o w) as H. unfold wp in H.
      cbv beta zeta in H. by apply H.
    + intros events. split; [by apply accepted_locals_rejecting|].
      by apply deliver_rejecting.
Qed.

(** *** Timeouts *)

(** X9: the timeouts of a tick.  In [StateUnobserved] and
    [StateQuorumUnobserved] the reactor times out exactly when more than
    [UnobservedTimeout] has passed since [firstSeen], a quorum of foreign
    signatures notwithstanding, and is left as it is otherwise; in
    [StateObserved] it times out exactly when more than [QuorumTimeout] has
    passed since [lastObservation].  None of these ticks finalizes. *)
Theorem tick_timeouts (w : World) :
  let st := currentState (rstate w) in
  let w' := snd (housekeeping w) in
  let now := clock (calls w) in
  (st = StateUnobserved \/ st = StateQuorumUnobserved ->
   let late :=
     time_Sub now (firstSeen (rstate w)) > UnobservedTimeout (config c) in
   (late -> rstate w' = set_currentState StateTimedOut (rstate w))
   /\ (~ late -> rstate w' = rstate w)
   /\ (currentState (rstate w') = StateTimedOut <-> late))
  /\ (st = StateObserved ->
      let late :=
        time_Sub now (lastObservation (rstate w)) > QuorumTimeout (config c) in
      (currentState (rstate w') = StateTimedOut <-> late)
      /\ (~ late -> currentState (rstate w') = StateObserved)).
Proof.
  cbv zeta. pose proof (housekeeping_timeouts w) as H. unfold wp in H.
  cbv beta zeta in H. split.
  - intros Hst.
    assert (Hw : rstate (snd (housekeeping w))
                 = if time_Sub (clock (calls w)) (firstSeen (rstate w))
                        >? UnobservedTimeout (config c)
                   then set_currentState StateTimedOut (rstate w)
                   else rstate w).
    { by destruct Hst as [Hst|Hst]; rewrite Hst in H. }
    rewrite Hw.
    destruct (Z.gtb_spec (time_Sub (clock (calls w)) (firstSeen (rstate w)))
                (UnobservedTimeout (config c))) as [Hgt|Hle].
    + split_and!; try done; try lia. split; [lia|done].
    + split_and!; try done; try lia.
      split; [|lia]. by destruct Hst as [-> | ->].
  - intros Hst. rewrite Hst in H. destruct H as [-> _].
    destruct (Z.gtb_spec (time_Sub (clock (calls w))
                            (lastObservation (rstate w)))
                (QuorumTimeout (config c))) as [Hgt|Hle].
    + split; [split; [lia|done]|lia].
    + split; [split; [done|lia]|done].
Qed.

(** *** Failures of the collaborators *)

(** X10: a failure of the signer is fatal, and happens before anything is
    signed or stored.  [observed] panics exactly when it accepts the
    observation, a signer is configured, and the signer fails to give its
    address or to sign; the reactor is then as before apart from the
    [observation] field, which holds the observation, and nothing has been
    sent. *)
Theorem signer_failure_panics_before_storing o (w : World) :
  let failed :=
    rejects_local (currentState (rstate w)) = false
    /\ exists signer,
         cfgSigner (config c) = Some signer
         /\ ((exists err, signer_Address signer (calls w) = inr err)
             \/ exists addr err,
                  signer_Address signer (calls w) = inl addr
                  /\ signer_Sign signer (S (calls w)) (SigningMsg o)
                     = inr err) in
  (fst (observed o w) = None <-> failed)
  /\ (fst (observed o w) = None ->
      rstate (snd (observed o w)) = set_observation o (rstate w)
      /\ (Forall not_sent (trace w) ->
          Forall not_sent (trace (snd (observed o w))))).
Proof.
  cbv zeta.
  change (wp (observed o) (fun r w' =>
    (r = None <->
     rejects_local (currentState (rstate w)) = false
     /\ exists signer,
          cfgSigner (config c) = Some signer
          /\ ((exists err, signer_Address signer (calls w) = inr err)
              \/ exists addr err,
                   signer_Address signer (calls w) = inl addr
                   /\ signer_Sign signer (S (calls w)) (SigningMsg o)
                      = inr err))
    /\ (r = None ->
        rstate w' = set_observation o (rstate w)
        /\ (Forall not_sent (trace w) -> Forall not_sent (trace w')))) w).
  open_world w. destruct st; wp_walk; cbn [rejects_local State_eqb
    State_string String.eqb Ascii.eqb Bool.eqb negb andb].
  all: split; [split|]; try done.
  all: try (intros (Hacc & sg & Hsg & [[e He]|(a & e & Ha & He)]);
            first [discriminate Hacc | congruence]).
  all: try (intros _; split; [done|]; eexists; split; [reflexivity|];
            first [ left; eexists; eassumption
                  | right; do 2 eexists; split; eassumption ]).
  all: intros _; split; [done|no_send_done].
Qed.

Lemma sender_fails_housekeeping (w : World) :
  sender_fails c ->
  wp housekeeping (fun r w' =>
    lastTransmission (rstate w') = lastTransmission (rstate w)) w.
Proof.
  unfold sender_fails. intros Hf. open_world w. destruct st; wp_walk.
  all: try done.
  all: match goal with
       | H : Send _ _ _ = None |- _ => by destruct (Hf _ _ H)
       end.
Qed.

Lemma sender_fails_observed o (w : World) signer addr sig :
  sender_fails c ->
  rejects_local (currentState (rstate w)) = false ->
  cfgSigner (config c) = Some signer ->
  signer_Address signer (calls w) = inl addr ->
  signer_Sign signer (S (calls w)) (SigningMsg o) = inl sig ->
  wp (observed o) (fun r w' =>
    r = Some tt
    /\ signatures (rstate w') = <[addr := sig]> (signatures (rstate w))
    /\ localSignature (rstate w') = sig
    /\ observation (rstate w') = o
    /\ rejects_local (currentState (rstate w')) = true
    /\ lastTransmission (rstate w') = lastTransmission (rstate w)) w.
Proof.
  unfold sender_fails. intros Hf Hacc Hsg Ha Hs.
  open_world w. destruct st; try discriminate Hacc; wp_walk.
  all: try done.
  all: match goal with
       | H : Send _ _ _ = None |- _ => by destruct (Hf _ _ H)
       end.
Qed.

(** X11: a failure of the gossip sender is not fatal.  With a sender that
    is missing or whose sends all fail, a local observation is signed and
    stored and moves the state machine as usual; only [lastTransmission] is
    never stamped, by the observation or by a later tick, so that once
    [RetransmitFrequency] has passed every tick in [StateObserved] tries to
    send again. *)
Theorem sender_failure_is_not_fatal (w : World) :
  sender_fails c ->
  (forall o signer addr sig,
     rejects_local (currentState (rstate w)) = false ->
     cfgSigner (config c) = Some signer ->
     signer_Address signer (calls w) = inl addr ->
     signer_Sign signer (S (calls w)) (SigningMsg o) = inl sig ->
     fst (observed o w) = Some tt
     /\ signatures (rstate (snd (observed o w)))
        = <[addr := sig]> (signatures (rstate w))
     /\ localSignature (rstate (snd (observed o w))) = sig
     /\ rejects_local (currentState (rstate (snd (observed o w)))) = true)
  /\ (forall events,
       lastTransmission (rstate (deliver events w))
       = lastTransmission (rstate w)).
Proof.
  intros Hf. split.
  - intros o signer addr sig Hacc Hsg Ha Hs.
    pose proof (sender_fails_observed o w signer addr sig Hf Hacc Hsg Ha Hs)
      as H. unfold wp in H. cbv beta in H.
    destruct H as (H1 & H2 & H3 & _ & H5 & _). by split_and!.
  - intros events. revert w.
    induction events as [|e rest IH]; intros w; [done|].
    cbn [Reactor.deliver]. rewrite IH.
    destruct e as [err|o|m|].
    + done.
    + cbn [Reactor.handle].
      change (wp (observed o) (fun _ w' =>
                lastTransmission (rstate w') = lastTransmission (rstate w)) w).
      unfold sender_fails in Hf.
      open_world w. destruct st; wp_walk.
      all: try done.
      all: match goal with
           | H : Send _ _ _ = None |- _ => by destruct (Hf _ _ H)
           end.
    + cbn [Reactor.handle].
      pose proof (observationReceived_edges m w) as H. unfold wp in H.
      cbv beta zeta in H. tauto.
    + rewrite snd_handle_tick. apply (sender_fails_housekeeping w Hf).
Qed.

(** *** The stored signatures *)

Lemma VAASignatures_loop_panics stored keys : forall i sigs,
  VAASignatures_loop keys i stored sigs = None
  <-> exists a sig, a ∈ keys /\ stored !! a = Some sig
                    /\ (length sig < 65)%nat.
Proof.
  induction keys as [|a keys IH]; intros i sigs; cbn [VAASignatures_loop].
  - split; [done|]. by intros (a & sig & ?%elem_of_nil & _).
  - destruct (stored !! a) as [sig|] eqn:Hsig.
    + destruct (decide (length (take 65 sig) <> 65%nat)) as [Hshort|Hok].
      * split; [intros _|done]. exists a, sig. split; [by left|].
        split; [done|]. rewrite length_take in Hshort. lia.
      * rewrite IH. apply dec_stable in Hok. rewrite length_take in Hok.
        split.
        -- intros (a' & sig' & Hin & Hs & Hl). exists a', sig'.
           split; [by right|done].
        -- intros (a' & sig' & Hin & Hs & Hl).
           apply elem_of_cons in Hin as [->|Hin]; [|by exists a', sig'].
           rewrite Hsig in Hs. injection Hs as <-. lia.
    + rewrite IH. split.
      * intros (a' & sig' & Hin & Hs & Hl). exists a', sig'.
        split; [by right|done].
      * intros (a' & sig' & Hin & Hs & Hl).
        apply elem_of_cons in Hin as [->|Hin]; [congruence|].
        by exists a', sig'.
Qed.

(** X12: [VAASignatures] panics exactly when a guardian of the snapshot
    has a stored signature of fewer than 65 bytes, whatever the size of the
    guardian set; a signature of an address outside the snapshot is never
    looked at, and a longer signature is cut to its first 65 bytes. *)
Theorem VAASignatures_panics_on_short_signature (s : reactorState) :
  (VAASignatures c s = None
   <-> exists a sig, a ∈ Keys (gs c) /\ signatures s !! a = Some sig
                     /\ (length sig < 65)%nat)
  /\ (forall out e, VAASignatures c s = Some out -> e ∈ out ->
        length (vsSignature e) = 65%nat
        /\ exists a sig, a ∈ Keys (gs c) /\ signatures s !! a = Some sig
                         /\ vsSignature e = take 65 sig).
Proof.
  split; [apply VAASignatures_loop_panics|].
  unfold VAASignatures.
  assert (Hloop : forall keys i sigs out e,
            VAASignatures_loop keys i (signatures s) sigs = Some out ->
            e ∈ out ->
            e ∈ sigs
            \/ length (vsSignature e) = 65%nat
               /\ exists a sig, a ∈ keys /\ signatures s !! a = Some sig
                                /\ vsSignature e = take 65 sig).
  { induction keys as [|a keys IH]; intros i sigs out e;
      cbn [VAASignatures_loop].
    - intros [= <-] He. by left.
    - destruct (signatures s !! a) as [sig|] eqn:Hsig.
      + destruct (decide _) as [|Hok]; [done|]. apply dec_stable in Hok.
        intros Hout He. destruct (IH _ _ _ _ Hout He) as [Hin|(Hl & H)].
        * apply elem_of_app in Hin as [Hin|Hin]; [by left|].
          apply list_elem_of_singleton in Hin as ->. right. cbn.
          split; [done|]. exists a, sig. split; [by left|done].
        * right. split; [done|]. destruct H as (a' & sig' & Hin & H).
          exists a', sig'. split; [by right|done].
      + intros Hout He. destruct (IH _ _ _ _ Hout He) as [Hin|(Hl & H)];
          [by left|].
        right. split; [done|]. destruct H as (a' & sig' & Hin & H).
        exists a', sig'. split; [by right|done]. }
  intros out e Hout He.
  destruct (Hloop _ _ _ _ _ Hout He) as [Hin|H]; [|done].
  by apply elem_of_nil in Hin.
Qed.

Lemma verified_inv m (w : World) :
  verified m w ->
  exists pk, Ecrecover (Hash m) (Signature m) = Some pk
             /\ BytesToAddress (Addr m) ∈ Keys (gs c).
Proof.
  unfold verifySignedObservation.
  destruct (Ecrecover (Hash m) (Signature m)) as [pk|]; [|done].
  destruct (decide _); [done|].
  destruct (KeyIndex (gs c) (BytesToAddress (Addr m))) as [i|] eqn:Hi;
    [|done].
  intros _. exists pk. split; [done|]. apply KeyIndex_member. by eexists.
Qed.

(** What [observed] does to the signature map: nothing, or it stores the
    signature the signer returned under the address the signer returned. *)
Lemma observed_signatures o (w : World) :
  wp (observed o) (fun r w' =>
    signatures (rstate w') = signatures (rstate w)
    \/ exists signer addr sig,
         cfgSigner (config c) = Some signer
         /\ signer_Address signer (calls w) = inl addr
         /\ signer_Sign signer (S (calls w)) (SigningMsg o) = inl sig
         /\ signatures (rstate w')
            = <[addr := sig]> (signatures (rstate w))) w.
Proof.
  open_world w. destruct st; wp_walk.
  all: first [ by left | right; do 3 eexists; by split_and! ].
Qed.

(** The signature map after an event: as before, or with one entry set. *)
Lemma handle_signatures e (w : World) :
  let sigs := signatures (rstate w) in
  let sigs' := signatures (rstate (snd (handle e w))) in
  sigs' = sigs
  \/ (exists m, e = ForeignObservation m /\ verified m w
                /\ sigs !! BytesToAddress (Addr m) = None
                /\ sigs' = <[BytesToAddress (Addr m) := Signature m]> sigs)
  \/ (exists o signer addr sig n,
        e = LocalObservation o
        /\ cfgSigner (config c) = Some signer
        /\ signer_Address signer n = inl addr
        /\ signer_Sign signer (S n) (SigningMsg o) = inl sig
        /\ sigs' = <[addr := sig]> sigs).
Proof.
  cbv zeta. destruct e as [err|o|m|].
  - by left.
  - cbn [Reactor.handle]. pose proof (observed_signatures o w) as H.
    unfold wp in H. cbv beta in H.
    destruct H as [H|(sg & a & s & H1 & H2 & H3 & H4)]; [by left|].
    right. right. exists o, sg, a, s, (calls w). by split_and!.
  - cbn [Reactor.handle].
    destruct (observationReceived_cases m w)
      as [_ [(Hs & _)|(_ & Hv & Hn & Hi & _)]].
    + left. by rewrite Hs.
    + right. left. exists m. by split_and!.
  - rewrite snd_handle_tick. left.
    pose proof (housekeeping_edges w) as H. unfold wp in H.
    cbv beta zeta in H. tauto.
Qed.

(** X13: signatures are only ever added.  An event stores at most one
    signature; every address that has a signature keeps one; a tick and a
    foreign observation leave every stored signature as it is, and only a
    local observation can replace one, the one under the signer's own
    address. *)
Theorem signatures_only_grow e (w : World) :
  let sigs := signatures (rstate w) in
  let sigs' := signatures (rstate (snd (handle e w))) in
  (forall a, is_Some (sigs !! a) -> is_Some (sigs' !! a))
  /\ (size sigs <= size sigs' <= S (size sigs))%nat
  /\ ((forall o, e <> LocalObservation o) -> sigs ⊆ sigs')
  /\ (forall a sig sig', sigs !! a = Some sig -> sigs' !! a = Some sig' ->
        sig' <> sig ->
        exists o signer n, e = LocalObservation o
                           /\ cfgSigner (config c) = Some signer
                           /\ signer_Address signer n = inl a).
Proof.
  cbv zeta.
  assert (Hsize : forall (m : gmap Address bytes) a v,
            (size m <= size (<[a := v]> m) <= S (size m))%nat).
  { intros m a v. destruct (m !! a) eqn:Ha.
    - rewrite map_size_insert_Some by done. lia.
    - rewrite map_size_insert_None by done. lia. }
  assert (Hdom : forall (m : gmap Address bytes) a v a',
            is_Some (m !! a') -> is_Some (<[a := v]> m !! a')).
  { intros m a v a' H. destruct (decide (a = a')) as [->|Hne].
    - rewrite lookup_insert_eq. by eexists.
    - by rewrite lookup_insert_ne. }
  destruct (handle_signatures e w)
    as [->|[(m & -> & _ & Hn & ->)|(o & sg & a & s & n & -> & Hsg & Ha & _ & ->)]].
  - split_and!; try done; try lia. intros a sig sig' H1 H2. congruence.
  - split_and!; [by auto|apply Hsize|apply Hsize| |].
    + intros _. by apply insert_subseteq.
    + intros a sig sig' H1 H2 Hne. exfalso.
      destruct (decide (BytesToAddress (Addr m) = a)) as [<-|Hd];
        [congruence|].
      rewrite lookup_insert_ne in H2 by done. congruence.
  - split_and!; [by auto|apply Hsize|apply Hsize| |].
    + intros H. by destruct (H o).
    + intros a' sig sig' H1 H2 Hne.
      destruct (decide (a = a')) as [<-|Hd]; [by exists o, sg, n|].
      rewrite lookup_insert_ne in H2 by done. congruence.
Qed.

(** X14: every stored signature has 65 bytes, provided the collaborators
    keep their contract: [Ecrecover] accepts 65-byte signatures only and
    the signer returns 65-byte signatures.  Then in every world a fresh
    reactor can reach [VAASignatures] returns without a panic. *)
Theorem stored_signatures_have_65_bytes (zeroK : K) :
  (forall h s pk, Ecrecover h s = Some pk -> length s = 65%nat) ->
  (forall signer n d s, cfgSigner (config c) = Some signer ->
                        signer_Sign signer n d = inl s ->
                        length s = 65%nat) ->
  forall w, reachable (NewWorld zeroK) w ->
    (forall a sig, signatures (rstate w) !! a = Some sig ->
                   length sig = 65%nat)
    /\ is_Some (VAASignatures c (rstate w)).
Proof.
  intros Hrec Hsign w Hr.
  assert (Hlen : forall a sig, signatures (rstate w) !! a = Some sig ->
                               length sig = 65%nat).
  { revert w Hr.
    apply (reachable_invariant
             (fun w => forall a sig, signatures (rstate w) !! a = Some sig ->
                                     length sig = 65%nat));
      [|done].
    intros e w Hw a sig.
    destruct (handle_signatures e w)
      as [->|[(m & -> & Hv & _ & ->)|(o & sg & a' & s & n & -> & Hsg & _ & Hs & ->)]].
    - apply Hw.
    - destruct (decide (BytesToAddress (Addr m) = a)) as [<-|Hd].
      + rewrite lookup_insert_eq. intros [= <-].
        destruct (verified_inv m w Hv) as (pk & Hpk & _). by eapply Hrec.
      + rewrite lookup_insert_ne by done. apply Hw.
    - destruct (decide (a' = a)) as [<-|Hd].
      + rewrite lookup_insert_eq. intros [= <-]. by eapply Hsign.
      + rewrite lookup_insert_ne by done. apply Hw. }
  split; [done|]. unfold VAASignatures.
  rewrite VAASignatures_loop_spec; [by eexists|].
  intros a sig _ Hs. rewrite (Hlen a sig Hs). lia.
Qed.

(** X15: whose signatures are stored.  In every world a fresh reactor can
    reach, an address with a stored signature is a guardian of the snapshot
    or an address the signer gave as its own; so an observer, which has no
    signer, stores signatures of guardians only. *)
Theorem stored_addresses_are_guardians (zeroK : K) :
  forall w, reachable (NewWorld zeroK) w ->
    (forall a, is_Some (signatures (rstate w) !! a) ->
       a ∈ Keys (gs c)
       \/ exists signer n, cfgSigner (config c) = Some signer
                           /\ signer_Address signer n = inl a)
    /\ (cfgSigner (config c) = None ->
        forall a, is_Some (signatures (rstate w) !! a) -> a ∈ Keys (gs c)).
Proof.
  intros w Hr.
  assert (H : forall a, is_Some (signatures (rstate w) !! a) ->
            a ∈ Keys (gs c)
            \/ exists signer n, cfgSigner (config c) = Some signer
                                /\ signer_Address signer n = inl a).
  { revert w Hr.
    apply (reachable_invariant
             (fun w => forall a, is_Some (signatures (rstate w) !! a) ->
                a ∈ Keys (gs c)
                \/ exists signer n, cfgSigner (config c) = Some signer
                                    /\ signer_Address signer n = inl a)).
    - intros e w Hw a.
      destruct (handle_signatures e w)
        as [->|[(m & -> & Hv & _ & ->)|(o & sg & a' & s & n & -> & Hsg & Ha & _ & ->)]].
      + apply Hw.
      + destruct (decide (BytesToAddress (Addr m) = a)) as [<-|Hd].
        * intros _. left. by destruct (verified_inv m w Hv) as (pk & _ & ?).
        * rewrite lookup_insert_ne by done. apply Hw.
      + destruct (decide (a' = a)) as [<-|Hd].
        * intros _. right. by exists sg, n.
        * rewrite lookup_insert_ne by done. apply Hw.
    - intros a. cbn. rewrite lookup_empty. by intros [? ?]. }
  split; [done|]. intros Hnone a Ha.
  destruct (H a Ha) as [?|(sg & n & Hsg & _)]; [done|congruence].
Qed.

(** *** A quorum state holds a quorum *)

Lemma hasQuorum_of_grows e (w : World) :
  hasQuorum_of c (rstate w) = true ->
  hasQuorum_of c (rstate (snd (handle e w))) = true.
Proof.
  unfold hasQuorum_of. rewrite !Z.geb_leb, !Z.leb_le. intros Hq.
  assert (Hsize : forall (m : gmap Address bytes) a v,
            (size m <= size (<[a := v]> m))%nat).
  { intros m a v. destruct (m !! a) eqn:Ha.
    - rewrite map_size_insert_Some by done. lia.
    - rewrite map_size_insert_None by done. lia. }
  destruct (handle_signatures e w)
    as [->|[(m & _ & _ & _ & ->)|(o & sg & a & s & n & _ & _ & _ & _ & ->)]];
    [done| |];
    match goal with
    | |- context [<[?a := ?v]> ?m] => pose proof (Hsize m a v)
    end; lia.
Qed.

Lemma observed_enters_quorum o (w : World) :
  wp (observed o) (fun _ w' =>
    holds_quorum (currentState (rstate w')) = true ->
    holds_quorum (currentState (rstate w)) = true
    \/ hasQuorum_of c (rstate w') = true) w.
Proof.
  open_world w. destruct st; wp_walk; cbn [holds_quorum].
  all: first [ done | intros _; by left | intros _; right; quorum_tests ].
Qed.

Lemma observationReceived_enters_quorum m (w : World) :
  wp (observationReceived m) (fun _ w' =>
    holds_quorum (currentState (rstate w')) = true ->
    holds_quorum (currentState (rstate w)) = true
    \/ hasQuorum_of c (rstate w') = true) w.
Proof.
  open_world w. destruct st; wp_walk; cbn [holds_quorum].
  all: first [ done | intros _; by left | intros _; right; quorum_tests ].
Qed.

Lemma handle_holds_quorum e (w : World) :
  (holds_quorum (currentState (rstate w)) = true ->
   hasQuorum_of c (rstate w) = true) ->
  holds_quorum (currentState (rstate (snd (handle e w)))) = true ->
  hasQuorum_of c (rstate (snd (handle e w))) = true.
Proof.
  intros Hw Hst'.
  assert (H : holds_quorum (currentState (rstate w)) = true
              \/ hasQuorum_of c (rstate (snd (handle e w))) = true).
  { destruct e as [err|o|m|].
    - by left.
    - by apply (observed_enters_quorum o w).
    - by apply (observationReceived_enters_quorum m w).
    - left. revert Hst'. rewrite snd_handle_tick.
      pose proof (housekeeping_edges w) as H. unfold wp in H.
      cbv beta zeta in H. destruct H as ([->|Hedge] & _); [done|].
      revert Hedge.
      destruct (currentState (rstate w)),
        (currentState (rstate (snd (housekeeping w)))); by cbn. }
  destruct H as [H|H]; [|done]. by apply hasQuorum_of_grows, Hw.
Qed.

(** X16: the states [StateQuorum], [StateQuorumUnobserved] and
    [StateFinalized] are held with a quorum of signatures only: in every
    world a fresh reactor can reach, the reactor in one of them has at
    least [CalculateQuorum] stored signatures, a quorum once reached is
    never lost, and as long as the reactor has not timed out it is in one
    of these states exactly when it has a quorum. *)
Theorem quorum_states_hold_a_quorum (zeroK : K) :
  (forall e (w : World),
     hasQuorum_of c (rstate w) = true ->
     hasQuorum_of c (rstate (snd (handle e w))) = true)
  /\ (forall w, reachable (NewWorld zeroK) w ->
        holds_quorum (currentState (rstate w)) = true ->
        hasQuorum_of c (rstate w) = true)
  /\ (forall w, reachable (NewWorld zeroK) w ->
        currentState (rstate w) <> StateTimedOut ->
        (hasQuorum_of c (rstate w) = true
         <-> holds_quorum (currentState (rstate w)) = true)).
Proof.
  assert (H1 : forall w, reachable (NewWorld zeroK) w ->
                 holds_quorum (currentState (rstate w)) = true ->
                 hasQuorum_of c (rstate w) = true).
  { apply (reachable_invariant
             (fun w => holds_quorum (currentState (rstate w)) = true ->
                       hasQuorum_of c (rstate w) = true)); [|done].
    intros e w. apply handle_holds_quorum. }
  split_and!; [apply hasQuorum_of_grows|done|].
  intros w Hr Hnt. split; [|by apply H1].
  intros Hq.
  assert (H2 : quorum_recorded w).
  { clear Hnt Hq. revert w Hr.
    apply (reachable_invariant (fun w => quorum_recorded w));
      [|apply quorum_recorded_new].
    intros e w. apply handle_quorum_recorded. }
  specialize (H2 Hq). revert H2 Hnt.
  by destruct (currentState (rstate w)).
Qed.

(** *** What has been sent *)

Local Abbreviation sent_matches := (sent_matches MessageID SigningMsg).

(** The effects of a path, one by one. *)
Ltac trace_done :=
  repeat (apply Forall_app; split);
  first [ assumption
        | by (eapply Forall_impl; [eassumption|];
              intros [] ?; cbn in *; tauto)
        | by (destruct (stateTransitionHook c); repeat constructor)
        | by repeat constructor ].

(** Before the local observation nothing is signed or sent; afterwards
    every send carries what the state holds. *)
Local Abbreviation sending_invariant w w' :=
  ((rejects_local (currentState (rstate w')) = false ->
    rejects_local (currentState (rstate w)) = false
    /\ localSignature (rstate w') = localSignature (rstate w)
    /\ (Forall not_sent (trace w) -> Forall not_sent (trace w'))
    /\ (currentState (rstate w') = StateInitialized ->
        currentState (rstate w) = StateInitialized
        /\ signatures (rstate w') = signatures (rstate w)
        /\ firstSeen (rstate w') = firstSeen (rstate w)
        /\ lastObservation (rstate w') = lastObservation (rstate w)
        /\ lastTransmission (rstate w') = lastTransmission (rstate w)))
   /\ (rejects_local (currentState (rstate w)) = false ->
       Forall not_sent (trace w) ->
       Forall (sent_matches (rstate w')) (trace w'))
   /\ (rejects_local (currentState (rstate w)) = true ->
       Forall (sent_matches (rstate w)) (trace w) ->
       Forall (sent_matches (rstate w')) (trace w'))).

Ltac sending_done :=
  split_and!;
  [ intros Hacc; first [ discriminate Hacc | vm_compute in Hacc; discriminate Hacc | idtac ];
    split_and!; first [ done | intros ?; trace_done | intros Hi; discriminate Hi | idtac ]
  | intros Hacc Hold; first [ discriminate Hacc | vm_compute in Hacc; discriminate Hacc | trace_done ]
  | intros Hacc Hold; first [ discriminate Hacc | vm_compute in Hacc; discriminate Hacc | trace_done ] ].

Lemma observed_sending o (w : World) :
  wp (observed o) (fun _ w' => sending_invariant w w') w.
Proof. open_world w. destruct st; wp_walk; sending_done. Qed.

Lemma observationReceived_sending m (w : World) :
  wp (observationReceived m) (fun _ w' => sending_invariant w w') w.
Proof. open_world w. destruct st; wp_walk; sending_done. Qed.

Lemma housekeeping_sending (w : World) :
  wp housekeeping (fun _ w' => sending_invariant w w') w.
Proof. open_world w. destruct st; wp_walk; sending_done. Qed.

Lemma handle_sending e (w : World) :
  sending_invariant w (snd (handle e w)).
Proof.
  destruct e as [err|o|m|].
  - cbn [Reactor.handle ret snd]. repeat split; auto.
    intros _ Hns. eapply Forall_impl; [exact Hns|].
    intros [] ?; cbn in *; tauto.
  - apply (observed_sending o w).
  - apply (observationReceived_sending m w).
  - rewrite snd_handle_tick. apply (housekeeping_sending w).
Qed.

(** X17: before the local observation is accepted nothing is signed and
    nothing is sent.  In every world a fresh reactor can reach in which a
    local observation would still be accepted, [localSignature] is empty
    and the gossip sender has not been called; and a reactor that is still
    in [StateInitialized] has no signature and no time stamp at all. *)
Theorem nothing_is_sent_before_the_local_observation (zeroK : K) :
  forall w, reachable (NewWorld zeroK) w ->
    rejects_local (currentState (rstate w)) = false ->
    localSignature (rstate w) = []
    /\ Forall not_sent (trace w)
    /\ (currentState (rstate w) = StateInitialized ->
        signatures (rstate w) = ∅
        /\ firstSeen (rstate w) = 0
        /\ lastObservation (rstate w) = 0
        /\ lastTransmission (rstate w) = 0).
Proof.
  apply (reachable_invariant
           (fun w => rejects_local (currentState (rstate w)) = false ->
              localSignature (rstate w) = []
              /\ Forall not_sent (trace w)
              /\ (currentState (rstate w) = StateInitialized ->
                  signatures (rstate w) = ∅
                  /\ firstSeen (rstate w) = 0
                  /\ lastObservation (rstate w) = 0
                  /\ lastTransmission (rstate w) = 0))).
  - intros e w Hw Hacc'.
    destruct (handle_sending e w) as (H & _).
    destruct (H Hacc') as (Hacc & Hls & Hns & Hinit).
    destruct (Hw Hacc) as (Hl & Ht & Hi).
    split_and!; [congruence|by apply Hns|].
    intros Hst'. destruct (Hinit Hst') as (Hst & -> & -> & -> & ->).
    by apply Hi.
  - intros _. cbn. split_and!; first [done | constructor].
Qed.

(** X18: all the sends of a reactor are the same message.  In every world
    a fresh reactor can reach, every call of the gossip sender so far
    carried the digest and the id of the stored observation, the stored
    local signature and an empty [TxHash]; so any two sends, the first
    transmission and every retransmission, agree on these fields. *)
Theorem all_sends_carry_the_same_message (zeroK : K) :
  forall w, reachable (NewWorld zeroK) w ->
    Forall (sent_matches (rstate w)) (trace w)
    /\ forall m1 m2, Sent m1 ∈ trace w -> Sent m2 ∈ trace w ->
         Hash m1 = Hash m2 /\ Signature m1 = Signature m2
         /\ MessageId m1 = MessageId m2 /\ TxHash m1 = [] /\ TxHash m2 = [].
Proof.
  intros w Hr.
  assert (H : Forall (sent_matches (rstate w)) (trace w)
              /\ (rejects_local (currentState (rstate w)) = false ->
                  Forall not_sent (trace w))).
  { revert w Hr.
    apply (reachable_invariant
             (fun w => Forall (sent_matches (rstate w)) (trace w)
                /\ (rejects_local (currentState (rstate w)) = false ->
                    Forall not_sent (trace w)))).
    - intros e w [Hm Hns].
      destruct (handle_sending e w) as (H1 & H2 & H3). split.
      + destruct (rejects_local (currentState (rstate w))) eqn:Hacc;
          [by apply H3|apply H2; [done|by apply Hns]].
      + intros Hacc'. destruct (H1 Hacc') as (Hacc & _ & Hkeep & _).
        by apply Hkeep, Hns.
    - split; [constructor|]. intros _. constructor. }
  destruct H as [Hm _]. split; [done|].
  intros m1 m2 H1 H2. rewrite Forall_forall in Hm.
  pose proof (Hm _ H1) as (A1 & B1 & C1 & D1).
  pose proof (Hm _ H2) as (A2 & B2 & C2 & D2).
  split_and!; congruence.
Qed.

(** *** When the sender is called *)

Lemma sends_of_app t1 t2 : sends_of (t1 ++ t2) = sends_of t1 ++ sends_of t2.
Proof.
  induction t1 as [|e t1 IH]; [done|]. destruct e; cbn; by rewrite ?IH.
Qed.

Lemma sends_of_hook (b : bool) a s :
  sends_of (if b then [Hook a s] else []) = [].
Proof. by destruct b. Qed.

Ltac sends_norm :=
  rewrite ?sends_of_app, ?sends_of_hook; cbn [sends_of];
  rewrite <- ?app_assoc; cbn [app]; rewrite ?app_nil_r.

Lemma observed_sends o (w : World) :
  wp (observed o) (fun _ w' =>
    exists l, sends_of (trace w') = sends_of (trace w) ++ l
              /\ (length l <= 1)%nat
              /\ (l <> [] ->
                  rejects_local (currentState (rstate w)) = false
                  /\ is_Some (cfgSigner (config c))
                  /\ is_Some (consensusSender c))) w.
Proof.
  open_world w. destruct st; wp_walk; sends_norm.
  all: first [ exists []; rewrite ?app_nil_r;
               split_and!; [done|cbn; lia|intros Hl; by destruct Hl]
             | eexists [_]; split_and!; [reflexivity|cbn; lia|];
               intros _; split_and!; first [done | by eexists] ].
Qed.

Lemma observationReceived_sends m (w : World) :
  wp (observationReceived m) (fun _ w' =>
    sends_of (trace w') = sends_of (trace w)) w.
Proof. open_world w. destruct st; wp_walk; by sends_norm. Qed.

Lemma housekeeping_sends (w : World) :
  wp housekeeping (fun _ w' =>
    exists l, sends_of (trace w') = sends_of (trace w) ++ l
              /\ (length l <= 1)%nat
              /\ (l <> [] ->
                  currentState (rstate w) = StateObserved
                  /\ time_Sub (clock (S (calls w)))
                       (lastTransmission (rstate w))
                     > RetransmitFrequency (config c)
                  /\ is_Some (cfgSigner (config c))
                  /\ is_Some (consensusSender c))) w.
Proof.
  open_world w. destruct st; wp_walk; sends_norm.
  all: first [ exists []; rewrite ?app_nil_r;
               split_and!; [done|cbn; lia|intros Hl; by destruct Hl]
             | eexists [_]; split_and!; [reflexivity|cbn; lia|];
               intros _; split_and!;
               first [ done | by eexists
                     | apply Z.lt_gt, Z.gtb_lt; assumption ] ].
Qed.

Lemma past_observed_rejects st :
  past_observed st = true ->
  rejects_local st = true /\ st <> StateObserved.
Proof. by destruct st. Qed.

(** The states after [StateObserved] are never left, and no event handled
    in one of them calls the sender. *)
Lemma handle_past_observed e (w : World) :
  past_observed (currentState (rstate w)) = true ->
  past_observed (currentState (rstate (snd (handle e w)))) = true
  /\ sends_of (trace (snd (handle e w))) = sends_of (trace w).
Proof.
  intros Hp. destruct (past_observed_rejects _ Hp) as [Hr Hno].
  destruct e as [err|o|m|].
  - done.
  - cbn [Reactor.handle]. split.
    + pose proof (observed_edges o w) as H. unfold wp in H.
      cbv beta zeta in H. destruct H as (_ & _ & H & _). by rewrite (H Hr).
    + destruct (observed_sends o w) as (l & H1 & _ & H3).
      destruct l as [|x l]; [by rewrite H1, app_nil_r|].
      destruct (H3 ltac:(discriminate)) as (Hacc & _). congruence.
  - cbn [Reactor.handle]. split; [|apply (observationReceived_sends m w)].
    pose proof (observationReceived_edges m w) as H. unfold wp in H.
    cbv beta zeta in H. destruct H as ([->|H] & _); [done|].
    revert Hp H. destruct (currentState (rstate w)),
      (currentState (rstate (snd (observationReceived m w)))); by cbn.
  - rewrite snd_handle_tick. split.
    + pose proof (housekeeping_edges w) as H. unfold wp in H.
      cbv beta zeta in H. destruct H as ([->|H] & _); [done|].
      revert Hp H. destruct (currentState (rstate w)),
        (currentState (rstate (snd (housekeeping w)))); by cbn.
    + destruct (housekeeping_sends w) as (l & H1 & _ & H3).
      destruct l as [|x l]; [by rewrite H1, app_nil_r|].
      destruct (H3 ltac:(discriminate)) as (Hst & _). done.
Qed.

(** X19: when the gossip sender is called.  An event calls it at most
    once; a foreign observation never does; a local observation does only
    when it is accepted and a signer and a sender are configured; a tick
    does only when it starts in [StateObserved] and more than
    [RetransmitFrequency] has passed since [lastTransmission] on the second
    clock reading of the tick.  The state meant is the one in which the
    tick starts: the tick sends after its timeout check, so it ends in
    [StateTimedOut] when more than [QuorumTimeout] has passed since
    [lastObservation], and in [StateObserved] otherwise.  Once an event
    starts in [StateQuorum], [StateFinalized] or [StateTimedOut], these
    states are never left and no event of any schedule calls the sender
    again. *)
Theorem sender_is_called_only_when_observed e (w : World) :
  (exists l,
     sends_of (trace (snd (handle e w))) = sends_of (trace w) ++ l
     /\ (length l <= 1)%nat
     /\ (l <> [] ->
         is_Some (cfgSigner (config c)) /\ is_Some (consensusSender c)
         /\ ((exists o, e = LocalObservation o)
             /\ rejects_local (currentState (rstate w)) = false
             \/ e = Tick
                /\ currentState (rstate w) = StateObserved
                /\ time_Sub (clock (S (calls w)))
                     (lastTransmission (rstate w))
                   > RetransmitFrequency (config c)
                /\ currentState (rstate (snd (handle e w)))
                   = (if time_Sub (clock (calls w))
                           (lastObservation (rstate w))
                         >? QuorumTimeout (config c)
                      then StateTimedOut else StateObserved))))
  /\ (past_observed (currentState (rstate w)) = true ->
      forall events,
        sends_of (trace (deliver events w)) = sends_of (trace w)
        /\ past_observed (currentState (rstate (deliver events w))) = true).
Proof.
  split.
  - destruct e as [err|o|m|].
    + exists []. cbn. rewrite app_nil_r.
      split_and!; [done|lia|intros Hl; by destruct Hl].
    + cbn [Reactor.handle].
      destruct (observed_sends o w) as (l & H1 & H2 & H3).
      exists l. split_and!; try done. intros Hl.
      destruct (H3 Hl) as (? & ? & ?). split_and!; try done. left. eauto.
    + exists []. cbn [Reactor.handle]. rewrite app_nil_r.
      split_and!; [apply (observationReceived_sends m w)|cbn; lia|].
      intros Hl. by destruct Hl.
    + rewrite snd_handle_tick.
      destruct (housekeeping_sends w) as (l & H1 & H2 & H3).
      exists l. split_and!; try done. intros Hl.
      destruct (H3 Hl) as (Hst & ? & ? & ?). split_and!; try done. right.
      split_and!; try done.
      pose proof (housekeeping_timeouts w) as Hto. unfold wp in Hto.
      cbv beta zeta in Hto. rewrite Hst in Hto. by destruct Hto as [-> _].
  - intros Hp events. revert w Hp.
    induction events as [|ev rest IH]; intros w Hp; [done|].
    cbn [Reactor.deliver].
    destruct (handle_past_observed ev w Hp) as [Hp' Hs].
    destruct (IH _ Hp') as [H1 H2]. split; [congruence|done].
Qed.

(** *** The loop and the handlers *)

(** X20: the loop applies the handlers to the events in the order it
    selects them.  As long as [Run] has neither returned nor panicked, the
    world it has reached is the one the handlers reach one after the other,
    and it has added nothing of its own but the health signal. *)
Theorem Run_applies_the_handlers_in_order events (w : World) :
  (fst (Run_loop events w) = Some Selecting ->
   snd (Run_loop events w) = deliver events w)
  /\ (fst (Run events w) = Some Selecting ->
      snd (Run events w)
      = deliver events {| rstate := rstate w; calls := calls w;
                          trace := trace w ++ [Signal "healthy"] |}).
Proof.
  assert (Hloop : forall events (w : World),
            fst (Run_loop events w) = Some Selecting ->
            snd (Run_loop events w) = deliver events w).
  { clear events w. induction events as [|e rest IH]; intros w; [done|].
    destruct e as [err|o|m|].
    - done.
    - cbn [Reactor.Run_loop Reactor.deliver Reactor.handle]. unfold bind.
      destruct (observed o w) as [[[]|] w']; [apply IH|done].
    - cbn [Reactor.Run_loop Reactor.deliver Reactor.handle]. unfold bind.
      destruct (observationReceived m w) as [[[]|] w']; [apply IH|done].
    - rewrite Run_loop_tick. cbn [Reactor.deliver].
      rewrite snd_handle_tick.
      destruct (terminal (currentState (rstate w))); [done|apply IH]. }
  split; [apply Hloop|].
  unfold Reactor.Run, bind, gets. cbn [emit fst snd rstate].
  destruct (State_eqb (currentState (rstate w)) StateFinalized); [done|].
  apply Hloop.
Qed.

End Properties.

(** * Instances on the concrete network *)

Lemma terminal_state_is_frozen_witness :
  terminal (currentState (rstate (Scenario.world_in StateTimedOut))) = true
  /\ forall events,
       rstate (snd (Run Scenario.MessageID Scenario.SigningMsg
                      Scenario.Ecrecover Scenario.Keccak256 Scenario.clock
                      Scenario.guardian events
                      (Scenario.world_in StateTimedOut)))
       = rstate (Scenario.world_in StateTimedOut).
Proof.
  split; [reflexivity|].
  apply (terminal_state_is_frozen Scenario.MessageID Scenario.SigningMsg
           Scenario.Ecrecover Scenario.Keccak256 Scenario.clock
           Scenario.guardian (Scenario.world_in StateTimedOut)).
  reflexivity.
Defined.

Lemma housekeeping_initialized_is_idle_witness :
  currentState (rstate Scenario.fresh) = StateInitialized
  /\ fst (housekeeping Scenario.MessageID Scenario.SigningMsg Scenario.clock
            Scenario.guardian Scenario.fresh) = Some (false, None).
Proof.
  split; [reflexivity|].
  destruct (housekeeping_initialized_is_idle Scenario.MessageID
              Scenario.SigningMsg Scenario.Ecrecover Scenario.Keccak256
              Scenario.clock Scenario.guardian Scenario.fresh eq_refl)
    as [-> _].
  reflexivity.
Defined.

(** The world a reactor reaches from its own observation and those of
    guardians 2 and 3. *)
Local Abbreviation S_three_signatures clock c :=
  (deliver Scenario.MessageID Scenario.SigningMsg Scenario.Ecrecover
     Scenario.Keccak256 clock c
     [LocalObservation "msg"; ForeignObservation (Scenario.signedBy 2);
      ForeignObservation (Scenario.signedBy 3)] Scenario.fresh).

(** Three ticks in [StateQuorum]: with the full set of three signatures
    inside the grace period, with three signatures out of four inside it,
    and with three out of four after it. *)
Lemma quorum_tick_finalizes_witness :
  let tick clock c :=
    housekeeping Scenario.MessageID Scenario.SigningMsg clock c
      (S_three_signatures clock c) in
  let since clock c :=
    time_Sub (clock (calls (S_three_signatures clock c)))
      (timeQuorum (rstate (S_three_signatures clock c))) in
  let full clock c :=
    length (Keys (gs c))
    = size (signatures (rstate (S_three_signatures clock c))) in
  (currentState (rstate (S_three_signatures Scenario.clock Scenario.guardian))
   = StateQuorum
   /\ ~ since Scenario.clock Scenario.guardian
        > QuorumGracePeriod (config Scenario.guardian)
   /\ full Scenario.clock Scenario.guardian
   /\ rstate (snd (tick Scenario.clock Scenario.guardian))
      = set_currentState StateFinalized
          (rstate (S_three_signatures Scenario.clock Scenario.guardian)))
  /\ (currentState
        (rstate (S_three_signatures Scenario.clock Scenario.council))
      = StateQuorum
      /\ ~ since Scenario.clock Scenario.council
           > QuorumGracePeriod (config Scenario.council)
      /\ ~ full Scenario.clock Scenario.council
      /\ rstate (snd (tick Scenario.clock Scenario.council))
         = rstate (S_three_signatures Scenario.clock Scenario.council))
  /\ (currentState
        (rstate (S_three_signatures Scenario.later Scenario.council))
      = StateQuorum
      /\ since Scenario.later Scenario.council
         > QuorumGracePeriod (config Scenario.council)
      /\ ~ full Scenario.later Scenario.council
      /\ currentState (rstate (snd (tick Scenario.later Scenario.council)))
         = StateFinalized).
Proof.
  cbv zeta beta. split_and!.
  - vm_compute; reflexivity.
  - vm_compute. intros H; discriminate H.
  - vm_compute; reflexivity.
  - destruct (quorum_tick_finalizes Scenario.MessageID Scenario.SigningMsg
                Scenario.clock Scenario.guardian
                (S_three_signatures Scenario.clock Scenario.guardian)
                ltac:(vm_compute; reflexivity)) as (_ & _ & H & _).
    apply H. right. vm_compute; reflexivity.
  - vm_compute; reflexivity.
  - vm_compute. intros H; discriminate H.
  - vm_compute. intros H; discriminate H.
  - destruct (quorum_tick_finalizes Scenario.MessageID Scenario.SigningMsg
                Scenario.clock Scenario.council
                (S_three_signatures Scenario.clock Scenario.council)
                ltac:(vm_compute; reflexivity)) as (_ & _ & _ & H & _).
    apply H. intros [H'|H']; vm_compute in H'; discriminate H'.
  - vm_compute; reflexivity.
  - vm_compute; reflexivity.
  - vm_compute. intros H; discriminate H.
  - destruct (quorum_tick_finalizes Scenario.MessageID Scenario.SigningMsg
                Scenario.later Scenario.council
                (S_three_signatures Scenario.later Scenario.council)
                ltac:(vm_compute; reflexivity)) as (_ & H & _).
    apply H. left. vm_compute; reflexivity.
Defined.

Lemma timed_out_tick_still_retransmits_witness :
  let w := Scenario.world_in StateObserved in
  let w' := snd (housekeeping Scenario.MessageID Scenario.SigningMsg
                   Scenario.clock Scenario.guardian w) in
  currentState (rstate w) = StateObserved
  /\ currentState (rstate w') = StateTimedOut
  /\ lastTransmission (rstate w') = 1004.
Proof.
  cbv zeta. split; [reflexivity|].
  rewrite (timed_out_tick_still_retransmits Scenario.MessageID
             Scenario.SigningMsg Scenario.clock Scenario.guardian
             (Scenario.world_in StateObserved) Scenario.signer
             Scenario.sender (Scenario.addrN 1)
             eq_refl eq_refl eq_refl eq_refl eq_refl eq_refl eq_refl).
  split; reflexivity.
Defined.

Lemma Scenario_Keccak256_length b :
  length (Scenario.Keccak256 b) = 32%nat.
Proof.
  unfold Scenario.Keccak256.
  rewrite length_take, length_app, length_replicate. lia.
Qed.

Lemma verification_exact_witness :
  (forall b, length (Scenario.Keccak256 b) = 32%nat)
  /\ (fst (verifySignedObservation Scenario.Ecrecover Scenario.Keccak256
             "grp" (Scenario.signedBy 2) Scenario.guardians Scenario.fresh)
       = Some None
       <-> exists pk,
             Scenario.Ecrecover (Hash (Scenario.signedBy 2))
               (Signature (Scenario.signedBy 2)) = Some pk
             /\ recovered_address Scenario.Keccak256 pk
                = BytesToAddress (Addr (Scenario.signedBy 2))
             /\ BytesToAddress (Addr (Scenario.signedBy 2))
                ∈ Keys Scenario.guardians).
Proof.
  split; [exact Scenario_Keccak256_length|].
  apply (verification_exact Scenario.Ecrecover Scenario.Keccak256
           Scenario.clock Scenario.guardian "grp" (Scenario.signedBy 2)
           Scenario.guardians Scenario.fresh Scenario_Keccak256_length).
Defined.

(** Guardian 2 is heard twice.  The second observation carries other
    signature bytes, which the verifier accepts for the same address: it
    reaches the duplicate check and is dropped there. *)
Lemma duplicate_foreign_observation_dropped_witness :
  let m1 := Scenario.signedBy 2 in
  let m2 := Scenario.signedAgainBy 2 in
  let received := observationReceived (K := string) Scenario.Ecrecover
                    Scenario.Keccak256 Scenario.clock Scenario.guardian in
  let w1 := snd (received m1 Scenario.fresh) in
  let w2 := snd (received m2 w1) in
  BytesToAddress (Addr m2) = BytesToAddress (Addr m1)
  /\ Signature m2 <> Signature m1
  /\ fst (verifySignedObservation Scenario.Ecrecover Scenario.Keccak256
            (group Scenario.guardian) m2 (gs Scenario.guardian) w1)
     = Some None
  /\ trace w2
     = trace w1
       ++ [Metric "observations_received" ["grp"];
           Log "debug" "received foreign observation";
           Metric "observations_received_by_guardian" ["grp"];
           Log "debug" "accepted foreign observation"]
  /\ size (signatures (rstate w2)) = 1%nat
  /\ signatures (rstate w2) !! Scenario.addrN 2 = Some (Scenario.sigFor 2)
  /\ rstate w2 = rstate w1.
Proof.
  cbv zeta. split; [reflexivity|].
  split; [intros H; vm_compute in H; discriminate H|].
  split; [vm_compute; reflexivity|].
  split; [vm_compute; reflexivity|].
  destruct (duplicate_foreign_observation_dropped (K := string)
              Scenario.Ecrecover Scenario.Keccak256 Scenario.clock
              Scenario.guardian) as (_ & _ & H).
  destruct (H Scenario.fresh (Scenario.signedBy 2) (Scenario.signedAgainBy 2)
              eq_refl eq_refl eq_refl eq_refl)
    as (_ & Hsize & Hsig & Hsame).
  split; [exact Hsize|]. split; [exact Hsig|exact Hsame].
Defined.

Lemma quorum_is_recorded_witness :
  hasQuorum_of Scenario.solo
    (set_signature (Scenario.addrN 1) (Scenario.sigFor 1)
       (rstate Scenario.fresh)) = true
  /\ currentState
       (rstate (snd (observed Scenario.MessageID Scenario.SigningMsg
                       Scenario.clock Scenario.solo "msg" Scenario.fresh)))
     = StateQuorum.
Proof.
  split; [vm_compute; reflexivity|].
  destruct (quorum_is_recorded Scenario.MessageID Scenario.SigningMsg
              Scenario.Ecrecover Scenario.Keccak256 Scenario.clock
              Scenario.solo "") as (_ & _ & _ & H).
  destruct (H Scenario.fresh "msg" Scenario.signer (Scenario.addrN 1)
              (Scenario.sigFor 1) eq_refl eq_refl eq_refl eq_refl)
    as (_ & Hst & _); [vm_compute; reflexivity|].
  exact Hst.
Defined.

(** The observer after the observation of guardian 1, and after those of
    all three guardians. *)
Local Abbreviation S_observer_heard ms :=
  (deliver Scenario.MessageID Scenario.SigningMsg Scenario.Ecrecover
     Scenario.Keccak256 Scenario.clock Scenario.observer
     (ForeignObservation <$> ms) Scenario.fresh).

Lemma observer_never_signs_nor_sends_witness :
  let obs := observed Scenario.MessageID Scenario.SigningMsg Scenario.clock
               Scenario.observer "msg" in
  let one := S_observer_heard [Scenario.signedBy 1] in
  let all := S_observer_heard [Scenario.signedBy 1; Scenario.signedBy 2;
                               Scenario.signedBy 3] in
  cfgSigner (config Scenario.observer) = None
  /\ (forall events,
       localSignature
         (rstate (snd (Run Scenario.MessageID Scenario.SigningMsg
                         Scenario.Ecrecover Scenario.Keccak256
                         Scenario.clock Scenario.observer events
                         Scenario.fresh))) = []
       /\ Forall not_sent
            (trace (snd (Run Scenario.MessageID Scenario.SigningMsg
                           Scenario.Ecrecover Scenario.Keccak256
                           Scenario.clock Scenario.observer events
                           Scenario.fresh))))
  /\ (currentState (rstate one) = StateUnobserved
      /\ currentState (rstate (snd (obs one))) = StateObserved
      /\ hooks_of (trace (snd (obs one)))
         = hooks_of (trace one) ++ [(StateUnobserved, StateObserved)])
  /\ (currentState (rstate all) = StateQuorumUnobserved
      /\ currentState (rstate (snd (obs all))) = StateQuorum
      /\ hooks_of (trace (snd (obs all)))
         = hooks_of (trace all) ++ [(StateQuorumUnobserved, StateQuorum)]).
Proof.
  cbv zeta.
  destruct (observer_never_signs_nor_sends Scenario.MessageID
              Scenario.SigningMsg Scenario.Ecrecover Scenario.Keccak256
              Scenario.clock Scenario.observer "" eq_refl)
    as (Hrun & _ & _ & _ & _ & Hfire).
  split; [reflexivity|]. split; [exact Hrun|]. split.
  - destruct (Hfire (S_observer_heard [Scenario.signedBy 1]) "msg")
      as (H & _ & _).
    assert (Hone : currentState
                     (rstate (S_observer_heard [Scenario.signedBy 1]))
                   = StateUnobserved) by (vm_compute; reflexivity).
    specialize (H (or_intror Hone)).
    replace (hasQuorum_of Scenario.observer
               (rstate (S_observer_heard [Scenario.signedBy 1])))
      with false in H by (vm_compute; reflexivity).
    destruct H as [Hst Hhook].
    split; [exact Hone|].
    split; [exact Hst|exact (Hhook eq_refl)].
  - destruct (Hfire (S_observer_heard [Scenario.signedBy 1;
                                       Scenario.signedBy 2;
                                       Scenario.signedBy 3]) "msg")
      as (_ & H & _).
    destruct (H ltac:(vm_compute; reflexivity)) as [Hst Hhook].
    split; [vm_compute; reflexivity|].
    split; [exact Hst|exact (Hhook eq_refl)].
Defined.

(** Two stored signatures out of three guardians, and one of a stranger. *)
Lemma VAASignatures_in_guardian_order_witness :
  let s := set_signature (Scenario.addrN 9) (Scenario.sigFor 9)
             (set_signature (Scenario.addrN 1) (Scenario.sigFor 1)
                (set_signature (Scenario.addrN 3) (Scenario.sigFor 3)
                   (NewReactor_state ""))) in
  (length (Keys (gs Scenario.guardian)) <= 256)%nat
  /\ exists out,
       VAASignatures Scenario.guardian s = Some out
       /\ StronglySorted Z.lt (vsIndex <$> out).
Proof.
  cbv zeta. split; [vm_compute; lia|].
  destruct (VAASignatures_in_guardian_order (K := string) Scenario.guardian
              (set_signature (Scenario.addrN 9) (Scenario.sigFor 9)
                 (set_signature (Scenario.addrN 1) (Scenario.sigFor 1)
                    (set_signature (Scenario.addrN 3) (Scenario.sigFor 3)
                       (NewReactor_state "")))))
    as (out & Hout & Hsorted & _).
  - vm_compute; lia.
  - intros a sig Hin Hsig.
    apply list_elem_of_In in Hin.
    cbn in Hin. destruct Hin as [<-|[<-|[<-|[]]]];
      vm_compute in Hsig;
      first [discriminate Hsig | injection Hsig as <-; vm_compute; lia].
  - exists out. split; [exact Hout|exact Hsorted].
Defined.

(** C7 as stated fails on a guardian set of 257 members: the index is a
    [uint8], so the last guardian is given the index of the first, and the
    list is not strictly ascending. *)
Lemma VAASignatures_index_wraps :
  exists out,
    VAASignatures Scenario.wide Scenario.wide_state = Some out
    /\ vsIndex <$> out = [0; 0]
    /\ ~ StronglySorted Z.lt (vsIndex <$> out).
Proof.
  eexists. split; [vm_compute; reflexivity|].
  split; [reflexivity|].
  cbn. intros H. inversion H as [|? ? _ Hall]; subst.
  inversion Hall as [|? ? Hlt _]; subst. lia.
Qed.

(** * Instances of the further properties *)

Local Abbreviation S_handle c :=
  (handle Scenario.MessageID Scenario.SigningMsg Scenario.Ecrecover
     Scenario.Keccak256 Scenario.clock c).
Local Abbreviation S_housekeeping c :=
  (housekeeping Scenario.MessageID Scenario.SigningMsg Scenario.clock c).
Local Abbreviation S_observed c :=
  (observed Scenario.MessageID Scenario.SigningMsg Scenario.clock c).
Local Abbreviation S_Run c :=
  (Run Scenario.MessageID Scenario.SigningMsg Scenario.Ecrecover
     Scenario.Keccak256 Scenario.clock c).
Local Abbreviation S_Run_loop c :=
  (Run_loop Scenario.MessageID Scenario.SigningMsg Scenario.Ecrecover
     Scenario.Keccak256 Scenario.clock c).
Local Abbreviation S_deliver c :=
  (deliver Scenario.MessageID Scenario.SigningMsg Scenario.Ecrecover
     Scenario.Keccak256 Scenario.clock c).
Local Abbreviation S_reachable c :=
  (reachable Scenario.MessageID Scenario.SigningMsg Scenario.Ecrecover
     Scenario.Keccak256 Scenario.clock c).
Local Abbreviation S_accepted_locals c :=
  (accepted_locals Scenario.MessageID Scenario.SigningMsg Scenario.Ecrecover
     Scenario.Keccak256 Scenario.clock c).

(** The guardian after its own observation and two foreign ones: a quorum
    of three signatures out of three. *)
Lemma Scenario_quorum_reachable :
  S_reachable Scenario.guardian Scenario.fresh
    (S_deliver Scenario.guardian
       [LocalObservation "msg"; ForeignObservation (Scenario.signedBy 2);
        ForeignObservation (Scenario.signedBy 3)] Scenario.fresh).
Proof.
  cbn [deliver]. do 3 apply reachable_handle. apply reachable_start.
Qed.

Lemma Scenario_unobserved_reachable :
  S_reachable Scenario.guardian Scenario.fresh
    (S_deliver Scenario.guardian
       [ForeignObservation (Scenario.signedBy 2)] Scenario.fresh).
Proof. cbn [deliver]. apply reachable_handle, reachable_start. Qed.

Lemma Scenario_Ecrecover_length h s pk :
  Scenario.Ecrecover h s = Some pk -> length s = 65%nat.
Proof. unfold Scenario.Ecrecover. by destruct (decide _). Qed.

Lemma Scenario_signer_length signer n d s :
  cfgSigner (config Scenario.guardian) = Some signer ->
  signer_Sign signer n d = inl s -> length s = 65%nat.
Proof. intros [= <-] [= <-]. reflexivity. Qed.

Lemma Run_returns_nil_only_when_terminal_witness :
  let r := S_Run Scenario.guardian [Tick; Tick]
             (Scenario.world_in StateObserved) in
  fst r = Some (Returned None)
  /\ terminal (currentState (rstate (snd r))) = true.
Proof.
  cbv zeta. split; [vm_compute; reflexivity|].
  apply (Run_returns_nil_only_when_terminal Scenario.MessageID
           Scenario.SigningMsg Scenario.Ecrecover Scenario.Keccak256
           Scenario.clock Scenario.guardian).
  vm_compute; reflexivity.
Defined.

Lemma Run_from_a_terminal_state_witness :
  currentState (rstate (Scenario.world_in StateFinalized)) = StateFinalized
  /\ fst (S_Run Scenario.guardian [LocalObservation "msg"; Tick]
            (Scenario.world_in StateFinalized)) = Some (Returned None).
Proof.
  split; [reflexivity|].
  destruct (Run_from_a_terminal_state Scenario.MessageID Scenario.SigningMsg
              Scenario.Ecrecover Scenario.Keccak256 Scenario.clock
              Scenario.guardian (Scenario.world_in StateFinalized)
              [LocalObservation "msg"; Tick]) as [H _].
  rewrite (H eq_refl). reflexivity.
Defined.

Lemma state_machine_moves_forward_witness :
  fst (S_observed Scenario.guardian "msg" Scenario.fresh) = Some tt
  /\ rejects_local (currentState (rstate Scenario.fresh)) = false
  /\ rejects_local
       (currentState
          (rstate (snd (S_observed Scenario.guardian "msg" Scenario.fresh))))
     = true.
Proof.
  split; [vm_compute; reflexivity|]. split; [reflexivity|].
  destruct (state_machine_moves_forward Scenario.MessageID
              Scenario.SigningMsg Scenario.Ecrecover Scenario.Keccak256
              Scenario.clock Scenario.guardian Scenario.fresh) as (H & _).
  destruct (H "msg") as (_ & H2).
  apply H2; [vm_compute; reflexivity|reflexivity].
Defined.

Lemma hook_follows_the_state_witness :
  stateTransitionHook Scenario.solo = true
  /\ exists l,
       hooks_of (trace (snd (S_handle Scenario.solo (LocalObservation "msg")
                               Scenario.fresh)))
       = hooks_of (trace Scenario.fresh) ++ l
       /\ (length l <= 2)%nat.
Proof.
  split; [reflexivity|].
  destruct (hook_follows_the_state Scenario.MessageID Scenario.SigningMsg
              Scenario.Ecrecover Scenario.Keccak256 Scenario.clock
              Scenario.solo Scenario.fresh (LocalObservation "msg"))
    as [H _].
  destruct (H eq_refl) as (l & H1 & _ & H3 & _).
  exists l. split; [exact H1|exact H3].
Defined.

Lemma timeQuorum_is_never_stamped_witness :
  let w := S_deliver Scenario.guardian
             [LocalObservation "msg"; ForeignObservation (Scenario.signedBy 2);
              ForeignObservation (Scenario.signedBy 3)] Scenario.fresh in
  S_reachable Scenario.guardian Scenario.fresh w
  /\ currentState (rstate w) = StateQuorum
  /\ timeQuorum (rstate w) = 0.
Proof.
  cbv zeta. split; [exact Scenario_quorum_reachable|].
  split; [vm_compute; reflexivity|].
  apply (timeQuorum_is_never_stamped Scenario.MessageID Scenario.SigningMsg
           Scenario.Ecrecover Scenario.Keccak256 Scenario.clock
           Scenario.guardian "").
  exact Scenario_quorum_reachable.
Defined.

Lemma firstSeen_is_stamped_once_witness :
  let w := Scenario.world_in StateObserved in
  currentState (rstate w) <> StateInitialized
  /\ firstSeen (rstate (snd (S_handle Scenario.guardian Tick w)))
     = firstSeen (rstate w).
Proof.
  cbv zeta. split; [intros H; vm_compute in H; discriminate H|].
  destruct (firstSeen_is_stamped_once Scenario.MessageID Scenario.SigningMsg
              Scenario.Ecrecover Scenario.Keccak256 Scenario.clock
              Scenario.guardian Tick (Scenario.world_in StateObserved))
    as [H _].
  apply H. intros H'; vm_compute in H'; discriminate H'.
Defined.

(** The guardian accepts its first local observation and keeps it; the
    guardian whose signer fails panics on it and accepts the next. *)
Lemma local_observation_is_accepted_once_witness :
  let first := snd (S_observed Scenario.guardian "msg1" Scenario.fresh) in
  let failed := snd (S_observed Scenario.keyless "msg1" Scenario.fresh) in
  let more := [LocalObservation "msg2"; Tick; LocalObservation "msg3"] in
  rejects_local (currentState (rstate Scenario.fresh)) = false
  /\ fst (S_observed Scenario.guardian "msg1" Scenario.fresh) = Some tt
  /\ rejects_local (currentState (rstate first)) = true
  /\ observation (rstate (S_deliver Scenario.guardian more first)) = "msg1"
  /\ (S_accepted_locals Scenario.guardian (LocalObservation "msg1" :: more)
        Scenario.fresh <= 1)%nat
  /\ S_accepted_locals Scenario.guardian (LocalObservation "msg1" :: more)
       Scenario.fresh = 1%nat
  /\ fst (S_observed Scenario.keyless "msg1" Scenario.fresh) = None
  /\ rstate failed = set_observation "msg1" (rstate Scenario.fresh)
  /\ rejects_local (currentState (rstate failed)) = false.
Proof.
  cbv zeta.
  assert (Hok : fst (S_observed Scenario.guardian "msg1" Scenario.fresh)
                = Some tt) by (vm_compute; reflexivity).
  assert (Hpanic : fst (S_observed Scenario.keyless "msg1" Scenario.fresh)
                   = None) by (vm_compute; reflexivity).
  destruct (local_observation_is_accepted_once Scenario.MessageID
              Scenario.SigningMsg Scenario.Ecrecover Scenario.Keccak256
              Scenario.clock Scenario.guardian Scenario.fresh)
    as (Hcount & Hacc & _).
  destruct (Hacc "msg1" eq_refl) as (Hreturned & _).
  destruct (Hreturned Hok) as (Hrej & Hkept).
  destruct (Hkept [LocalObservation "msg2"; Tick; LocalObservation "msg3"])
    as (_ & Hobs).
  destruct (local_observation_is_accepted_once Scenario.MessageID
              Scenario.SigningMsg Scenario.Ecrecover Scenario.Keccak256
              Scenario.clock Scenario.keyless Scenario.fresh)
    as (_ & Hacc' & _).
  destruct (Hacc' "msg1" eq_refl) as (_ & Hfailed).
  destruct (Hfailed Hpanic) as (Hstate & Hagain).
  split; [reflexivity|]. split; [exact Hok|]. split; [exact Hrej|].
  split; [exact Hobs|]. split; [apply Hcount|].
  split; [vm_compute; reflexivity|].
  split; [exact Hpanic|]. split; [exact Hstate|exact Hagain].
Defined.

Lemma tick_timeouts_witness :
  let w := Scenario.world_in StateQuorumUnobserved in
  (currentState (rstate w) = StateUnobserved
   \/ currentState (rstate w) = StateQuorumUnobserved)
  /\ time_Sub (Scenario.clock (calls w)) (firstSeen (rstate w))
     > UnobservedTimeout (config Scenario.guardian)
  /\ rstate (snd (S_housekeeping Scenario.guardian w))
     = set_currentState StateTimedOut (rstate w).
Proof.
  cbv zeta. split; [right; reflexivity|]. split; [vm_compute; reflexivity|].
  destruct (tick_timeouts Scenario.MessageID Scenario.SigningMsg
              Scenario.clock Scenario.guardian
              (Scenario.world_in StateQuorumUnobserved)) as [H _].
  destruct (H (or_intror eq_refl)) as (H1 & _).
  apply H1. vm_compute; reflexivity.
Defined.

Lemma signer_failure_panics_before_storing_witness :
  fst (S_observed Scenario.keyless "msg" Scenario.fresh) = None
  /\ rstate (snd (S_observed Scenario.keyless "msg" Scenario.fresh))
     = set_observation "msg" (rstate Scenario.fresh).
Proof.
  split; [vm_compute; reflexivity|].
  destruct (signer_failure_panics_before_storing Scenario.MessageID
              Scenario.SigningMsg Scenario.Ecrecover Scenario.Keccak256
              Scenario.clock Scenario.keyless "msg" Scenario.fresh)
    as [_ H].
  destruct (H ltac:(vm_compute; reflexivity)) as [H1 _]. exact H1.
Defined.

Lemma sender_failure_is_not_fatal_witness :
  sender_fails Scenario.isolated
  /\ forall events,
       lastTransmission
         (rstate (S_deliver Scenario.isolated events Scenario.fresh))
       = lastTransmission (rstate Scenario.fresh).
Proof.
  assert (H : sender_fails Scenario.isolated).
  { cbn. intros n m. discriminate. }
  split; [exact H|].
  apply (sender_failure_is_not_fatal Scenario.MessageID Scenario.SigningMsg
           Scenario.Ecrecover Scenario.Keccak256 Scenario.clock
           Scenario.isolated Scenario.fresh H).
Defined.

Lemma stored_signatures_have_65_bytes_witness :
  let w := S_deliver Scenario.guardian
             [LocalObservation "msg"; ForeignObservation (Scenario.signedBy 2);
              ForeignObservation (Scenario.signedBy 3)] Scenario.fresh in
  S_reachable Scenario.guardian Scenario.fresh w
  /\ is_Some (VAASignatures Scenario.guardian (rstate w)).
Proof.
  cbv zeta. split; [exact Scenario_quorum_reachable|].
  apply (stored_signatures_have_65_bytes Scenario.MessageID
           Scenario.SigningMsg Scenario.Ecrecover Scenario.Keccak256
           Scenario.clock Scenario.guardian ""
           Scenario_Ecrecover_length Scenario_signer_length).
  exact Scenario_quorum_reachable.
Defined.

Lemma stored_addresses_are_guardians_witness :
  let w := S_deliver Scenario.guardian
             [ForeignObservation (Scenario.signedBy 2)] Scenario.fresh in
  S_reachable Scenario.guardian Scenario.fresh w
  /\ (is_Some (signatures (rstate w) !! Scenario.addrN 2) ->
      Scenario.addrN 2 ∈ Keys (gs Scenario.guardian)
      \/ exists signer n,
           cfgSigner (config Scenario.guardian) = Some signer
           /\ signer_Address signer n = inl (Scenario.addrN 2)).
Proof.
  cbv zeta. split; [exact Scenario_unobserved_reachable|].
  apply (stored_addresses_are_guardians Scenario.MessageID
           Scenario.SigningMsg Scenario.Ecrecover Scenario.Keccak256
           Scenario.clock Scenario.guardian "").
  exact Scenario_unobserved_reachable.
Defined.

Lemma quorum_states_hold_a_quorum_witness :
  let w := S_deliver Scenario.guardian
             [LocalObservation "msg"; ForeignObservation (Scenario.signedBy 2);
              ForeignObservation (Scenario.signedBy 3)] Scenario.fresh in
  S_reachable Scenario.guardian Scenario.fresh w
  /\ holds_quorum (currentState (rstate w)) = true
  /\ hasQuorum_of Scenario.guardian (rstate w) = true.
Proof.
  cbv zeta. split; [exact Scenario_quorum_reachable|].
  split; [vm_compute; reflexivity|].
  destruct (quorum_states_hold_a_quorum Scenario.MessageID
              Scenario.SigningMsg Scenario.Ecrecover Scenario.Keccak256
              Scenario.clock Scenario.guardian "") as (_ & H & _).
  apply H.
  - exact Scenario_quorum_reachable.
  - vm_compute; reflexivity.
Defined.

Lemma nothing_is_sent_before_the_local_observation_witness :
  let w := S_deliver Scenario.guardian
             [ForeignObservation (Scenario.signedBy 2)] Scenario.fresh in
  S_reachable Scenario.guardian Scenario.fresh w
  /\ rejects_local (currentState (rstate w)) = false
  /\ localSignature (rstate w) = []
  /\ Forall not_sent (trace w).
Proof.
  cbv zeta. split; [exact Scenario_unobserved_reachable|].
  split; [vm_compute; reflexivity|].
  destruct (nothing_is_sent_before_the_local_observation Scenario.MessageID
              Scenario.SigningMsg Scenario.Ecrecover Scenario.Keccak256
              Scenario.clock Scenario.guardian "" _
              Scenario_unobserved_reachable) as (H1 & H2 & _);
    [vm_compute; reflexivity|].
  split; [exact H1|exact H2].
Defined.

Lemma all_sends_carry_the_same_message_witness :
  let w := S_deliver Scenario.guardian
             [LocalObservation "msg"; ForeignObservation (Scenario.signedBy 2);
              ForeignObservation (Scenario.signedBy 3)] Scenario.fresh in
  S_reachable Scenario.guardian Scenario.fresh w
  /\ Forall (sent_matches Scenario.MessageID Scenario.SigningMsg (rstate w))
       (trace w).
Proof.
  cbv zeta. split; [exact Scenario_quorum_reachable|].
  apply (all_sends_carry_the_same_message Scenario.MessageID
           Scenario.SigningMsg Scenario.Ecrecover Scenario.Keccak256
           Scenario.clock Scenario.guardian "").
  exact Scenario_quorum_reachable.
Defined.

Lemma Run_applies_the_handlers_in_order_witness :
  let events := [LocalObservation "msg";
                 ForeignObservation (Scenario.signedBy 2)] in
  fst (S_Run_loop Scenario.guardian events Scenario.fresh) = Some Selecting
  /\ snd (S_Run_loop Scenario.guardian events Scenario.fresh)
     = S_deliver Scenario.guardian events Scenario.fresh.
Proof.
  cbv zeta. split; [vm_compute; reflexivity|].
  destruct (Run_applies_the_handlers_in_order Scenario.MessageID
              Scenario.SigningMsg Scenario.Ecrecover Scenario.Keccak256
              Scenario.clock Scenario.guardian
              [LocalObservation "msg";
               ForeignObservation (Scenario.signedBy 2)] Scenario.fresh)
    as [H _].
  apply H. vm_compute; reflexivity.
Defined.


Lemma Run_stops_at_cancellation_witness :
  currentState (rstate Scenario.fresh) <> StateFinalized
  /\ fst (S_Run Scenario.guardian [CtxDone "cancelled"; Tick] Scenario.fresh)
     = Some (Returned (Some "cancelled")).
Proof.
  assert (H : currentState (rstate Scenario.fresh) <> StateFinalized).
  { intros H'; vm_compute in H'; discriminate H'. }
  split; [exact H|].
  destruct (Run_stops_at_cancellation Scenario.MessageID Scenario.SigningMsg
              Scenario.Ecrecover Scenario.Keccak256 Scenario.clock
              Scenario.guardian [] "cancelled" [Tick] Scenario.fresh)
    as [_ H2].
  rewrite (H2 H). reflexivity.
Defined.

(** A stored signature of 64 bytes makes [VAASignatures] panic. *)
Lemma VAASignatures_panics_on_short_signature_witness :
  let s := set_signature (Scenario.addrN 1) (replicate 64 x01)
             (NewReactor_state "") in
  (exists a sig, a ∈ Keys (gs Scenario.guardian)
                 /\ signatures s !! a = Some sig /\ (length sig < 65)%nat)
  /\ VAASignatures Scenario.guardian s = None.
Proof.
  cbv zeta.
  assert (H : exists a sig,
            a ∈ Keys (gs Scenario.guardian)
            /\ signatures (set_signature (Scenario.addrN 1)
                             (replicate 64 x01) (NewReactor_state ""))
               !! a = Some sig
            /\ (length sig < 65)%nat).
  { exists (Scenario.addrN 1), (replicate 64 x01).
    split; [apply list_elem_of_here|].
    split; [vm_compute; reflexivity|vm_compute; lia]. }
  split; [exact H|].
  apply (VAASignatures_panics_on_short_signature (K := string)
           Scenario.guardian). exact H.
Defined.

Lemma signatures_only_grow_witness :
  let e := ForeignObservation (K := string) (Scenario.signedBy 2) in
  (forall o, e <> LocalObservation o)
  /\ signatures (rstate Scenario.fresh)
     ⊆ signatures (rstate (snd (S_handle Scenario.guardian e Scenario.fresh))).
Proof.
  cbv zeta.
  assert (H : forall o : string,
            ForeignObservation (Scenario.signedBy 2) <> LocalObservation o)
    by discriminate.
  split; [exact H|].
  destruct (signatures_only_grow Scenario.MessageID Scenario.SigningMsg
              Scenario.Ecrecover Scenario.Keccak256 Scenario.clock
              Scenario.guardian (ForeignObservation (Scenario.signedBy 2))
              Scenario.fresh) as (_ & _ & H3 & _).
  exact (H3 H).
Defined.

(** The guardian in [StateQuorum], one send behind it: whatever follows,
    the sender is not called again.  And the tick that times the guardian
    out of [StateObserved] is one that sends. *)
Lemma sender_is_called_only_when_observed_witness :
  let w := S_deliver Scenario.guardian
             [LocalObservation "msg";
              ForeignObservation (Scenario.signedBy 2);
              ForeignObservation (Scenario.signedBy 3)] Scenario.fresh in
  let events := [Tick; LocalObservation "other";
                 ForeignObservation (Scenario.signedAgainBy 2); Tick] in
  let timed := snd (S_handle Scenario.guardian Tick
                      (Scenario.world_in StateObserved)) in
  past_observed (currentState (rstate w)) = true
  /\ length (sends_of (trace w)) = 1%nat
  /\ sends_of (trace (S_deliver Scenario.guardian events w))
     = sends_of (trace w)
  /\ length (sends_of (trace timed)) = 1%nat
  /\ currentState (rstate timed) = StateTimedOut.
Proof.
  cbv zeta.
  assert (Hpast : past_observed
                    (currentState
                       (rstate
                          (S_deliver Scenario.guardian
                             [LocalObservation "msg";
                              ForeignObservation (Scenario.signedBy 2);
                              ForeignObservation (Scenario.signedBy 3)]
                             Scenario.fresh))) = true)
    by (vm_compute; reflexivity).
  split; [exact Hpast|]. split; [vm_compute; reflexivity|]. split.
  - destruct (sender_is_called_only_when_observed Scenario.MessageID
                Scenario.SigningMsg Scenario.Ecrecover Scenario.Keccak256
                Scenario.clock Scenario.guardian Tick
                (S_deliver Scenario.guardian
                   [LocalObservation "msg";
                    ForeignObservation (Scenario.signedBy 2);
                    ForeignObservation (Scenario.signedBy 3)]
                   Scenario.fresh)) as [_ H].
    destruct (H Hpast [Tick; LocalObservation "other";
                       ForeignObservation (Scenario.signedAgainBy 2); Tick])
      as [Hsends _].
    exact Hsends.
  - split; [vm_compute; reflexivity|].
    destruct (sender_is_called_only_when_observed Scenario.MessageID
                Scenario.SigningMsg Scenario.Ecrecover Scenario.Keccak256
                Scenario.clock Scenario.guardian Tick
                (Scenario.world_in StateObserved))
      as [(l & H1 & _ & H3) _].
    assert (Hl : l <> []).
    { intros ->. rewrite app_nil_r in H1. vm_compute in H1.
      discriminate H1. }
    destruct (H3 Hl) as (_ & _ & [[[o Ho] _]|(_ & _ & _ & Hst)]);
      [discriminate Ho|exact Hst].
Defined.
